(** * Survey submission queue of the experience-sampling extension

    A shallow embedding of [SurveySubmission] (the submission half of
    [extension_tests/survey-submission-spec.js]) and of the alarm set-up
    of the background page, followed by the properties of the queue
    that the specification states.

    Conventions of the embedding:
    - JavaScript numbers that hold integers (tries, epoch milliseconds,
      keys, HTTP status codes) are [Z]. The sending delay is given twice:
      [calculateSendingDelay_binary64] is the source expression in the
      binary64 arithmetic of JavaScript, [calculateSendingDelay] the
      integer the queue arithmetic is done with; they are the same number
      for 0 to 42 tries ([calculateSendingDelay_agrees]);
    - the IndexedDB object store ['PendingSurveyRecords'] is a finite map
      from primary keys to records together with its key generator;
    - a promise is described by the state it ends in ([Settlement]);
    - [Date.now()] is an argument of every function that reads the clock. *)

From Stdlib Require Import ZArith Lia List Ascii String Floats.
From stdpp Require Import base option list strings sorting gmap.

Set Warnings "-register-all".

Local Open Scope Z_scope.

(** ** Submission settings *)

Module Settings.

Definition SERVER_URL : string :=
  "https://chrome-experience-sampling.appspot.com"%string.
Definition SUBMIT_SURVEY_ACTION : string :=
  "/_ah/api/cesp/v1/submitsurvey"%string.
Definition XHR_TIMEOUT : Z := 4000.
Definition DB_NAME : string := "pendingResponsesDB"%string.
Definition DB_VERSION : Z := 1.
Definition QUEUE_ALARM_NAME : string := "surveySubmissionAlarm"%string.

End Settings.

(** ** Backoff scheduler *)

(** [Math.pow(2, n)] for an integer [n]: the power of two, which binary64
    holds exactly until it overflows to [Infinity] (from 1024) or
    underflows to 0 (below -1074). *)
Definition pow2_binary64 (n : Z) : float :=
  match n with
  | Z0 => 1%float
  | Zpos p => Pos.iter (PrimFloat.mul 2%float) 1%float p
  | Zneg p => Pos.iter (PrimFloat.mul 0.5%float) 1%float p
  end.

(** [SurveySubmission.calculateSendingDelay]:
    [(Math.pow(2, tries) - 1) * 60000] in binary64, each operation rounded
    to nearest. *)
Definition calculateSendingDelay_binary64 (tries : Z) : float :=
  PrimFloat.mul (PrimFloat.sub (pow2_binary64 tries) 1%float) 60000%float.

(** The integer a binary64 number is, when it is one. *)
Definition binary64_to_Z (x : float) : option Z :=
  match Prim2SF x with
  | S754_zero _ => Some 0
  | S754_finite negative m e =>
      let magnitude :=
        if 0 <=? e then Some (Z.pos m * 2 ^ e)
        else if Z.pos m mod 2 ^ (- e) =? 0 then Some (Z.pos m / 2 ^ (- e))
        else None in
      (if negative then Z.opp else (fun z => z)) <$> magnitude
  | _ => None
  end.

(** Every number of the list is below all that follow it. *)
Fixpoint ascending (l : list float) : bool :=
  match l with
  | [] => true
  | x :: rest => forallb (PrimFloat.ltb x) rest && ascending rest
  end.

(** The delays after 0, 1, ..., [n - 1] tries. *)
Definition delays (n : nat) : list float :=
  (fun k => calculateSendingDelay_binary64 (Z.of_nat k)) <$> seq 0 n.

(** The delay as an integer, [(2^tries - 1) * 60000]: what the source
    expression is worth without rounding. The store and the queue are
    described with it. It is the value of
    [calculateSendingDelay_binary64] for 0 to 42 tries; for larger counts
    the binary64 value is this integer rounded (and [Infinity] from 1009),
    for negative counts it is not the value of the source. *)
Definition calculateSendingDelay (tries : Z) : Z :=
  (2 ^ tries - 1) * 60000.

(** ** Data model *)

(** The JSON document handed to [JSON.stringify]. *)
Inductive json : Type :=
| JNull
| JNum (n : Z)
| JStr (s : string)
| JArr (items : list json)
| JObj (fields : list (string * json)).

(** [obj[key]] on a JSON object. *)
Fixpoint assoc (key : string) (fields : list (string * json)) : option json :=
  match fields with
  | [] => None
  | (k, v) :: rest => if String.eqb k key then Some v else assoc key rest
  end.

Definition property (key : string) (doc : json) : option json :=
  match doc with
  | JObj fields => assoc key fields
  | _ => None
  end.

(** [SurveySubmission.Response] *)
Record Response : Type := {
  question : string;
  answer : string
}.

(** [SurveySubmission.SurveyRecord]. [dateTaken] is the time value of the
    [Date] in milliseconds since the epoch; [participantId] is kept as the
    JSON value it serialises to (the background page passes a string, the
    tests a number). *)
Record SurveyRecord : Type := {
  type : string;
  participantId : json;
  dateTaken : Z;
  responses : list Response
}.

(** [SurveySubmission.PendingSurveyRecord] *)
Record PendingSurveyRecord : Type := {
  surveyRecord : SurveyRecord;
  timeToSend : Z;
  tries : Z
}.

(** A value read back from the object store: the pending record with the
    primary key the store injects at its key path ['id']. *)
Module Stored.
Record t : Type := {
  id : Z;
  pending : PendingSurveyRecord
}.
End Stored.

(** The object literal [{id: ..., surveyRecord: ...}] that [processQueue]
    pushes for each due record. *)
Module Entry.
Record t : Type := {
  id : Z;
  surveyRecord : SurveyRecord
}.
End Entry.

(** ** Exceptions and promises *)

Inductive JsError : Type :=
| ReferenceError (identifier : string)
| TypeError (message : string).

(** What a promise is rejected with. *)
Inductive Reason : Type :=
| HttpStatus (status : Z)        (* reject(xhr.status) *)
| ErrorObject (message : string) (* reject(Error(...)) *)
| RequestFailed                  (* request.onerror = reject *)
| Thrown (e : JsError).          (* an exception raised by an executor or
                                    by a reaction callback *)

(** The state a promise ends in. [Unsettled] promises are never fulfilled
    nor rejected; [escaped] is the exception, if any, that left the event
    handler which should have settled the promise. *)
Inductive Settlement (A : Type) : Type :=
| Fulfilled (value : A)
| Rejected (reason : Reason)
| Unsettled (escaped : option JsError).

Arguments Fulfilled {A} value.
Arguments Rejected {A} reason.
Arguments Unsettled {A} escaped.

Definition is_fulfilled {A : Type} (p : Settlement A) : bool :=
  match p with Fulfilled _ => true | _ => false end.

Definition is_rejected {A : Type} (p : Settlement A) : bool :=
  match p with Rejected _ => true | _ => false end.

(** How a synchronous call ends. *)
Inductive Completion : Type :=
| Returned
| Threw (e : JsError).

(** ** The durable queue store (IndexedDB) *)

(** The object store created by [setupPendingResponsesDatabase]:
    [{keyPath: 'id', autoIncrement: true}]. *)
Record ObjectStore : Type := {
  records : gmap Z PendingSurveyRecord;
  keyGenerator : Z
}.

Definition emptyStore : ObjectStore :=
  {| records := ∅; keyGenerator := 1 |}.

(** The generator counts from 1 and every key in use was issued by it. *)
Definition store_wf (st : ObjectStore) : Prop :=
  0 < keyGenerator st /\
  forall (k : Z) (p : PendingSurveyRecord),
    records st !! k = Some p -> 0 < k < keyGenerator st.

(** Every record carries a non-negative number of tries and a
    [timeToSend] computed from it at or before the time [now]. *)
Definition scheduled_by (now : Z) (st : ObjectStore) : Prop :=
  forall (k : Z) (p : PendingSurveyRecord),
    records st !! k = Some p ->
    0 <= tries p /\ timeToSend p <= now + calculateSendingDelay (tries p).

(** What the environment does to storage requests: whether
    [indexedDB.open] succeeds and whether the requests made on the object
    store succeed. *)
Record Idb : Type := {
  db_opens : bool;
  requests_succeed : bool
}.

Definition storage_available : Idb :=
  {| db_opens := true; requests_succeed := true |}.

(** [store.add(value)] for a value without an ['id'] property: the key
    comes from the generator; a key already in use fails the request. *)
Definition idb_add (value : PendingSurveyRecord) (st : ObjectStore)
  : option (Z * ObjectStore) :=
  let key := keyGenerator st in
  match records st !! key with
  | Some _ => None
  | None =>
      Some (key, {| records := <[key := value]> (records st);
                    keyGenerator := key + 1 |})
  end.

(** [store.get(id)]; the result is [undefined] ([None]) for a missing key. *)
Definition idb_get (key : Z) (st : ObjectStore) : option Stored.t :=
  (fun p => {| Stored.id := key; Stored.pending := p |}) <$> records st !! key.

(** [store.put(value)]: the key is read from the value's ['id']; an
    explicit key at or above the generator's number advances it. *)
Definition idb_put (value : Stored.t) (st : ObjectStore) : ObjectStore :=
  let key := Stored.id value in
  {| records := <[key := Stored.pending value]> (records st);
     keyGenerator :=
       if keyGenerator st <=? key then key + 1 else keyGenerator st |}.

(** [store.delete(id)] *)
Definition idb_delete (key : Z) (st : ObjectStore) : ObjectStore :=
  {| records := delete key (records st); keyGenerator := keyGenerator st |}.

(** The index key of a stored value. *)
Definition index_key (v : Stored.t) : Z := timeToSend (Stored.pending v).

(** Order of the index ['timeToSend'] ([{unique: false}]): by index key,
    then by primary key. *)
Definition index_leb (a b : Stored.t) : bool :=
  (timeToSend (Stored.pending a) <? timeToSend (Stored.pending b))
  || ((timeToSend (Stored.pending a) =? timeToSend (Stored.pending b))
      && (Stored.id a <=? Stored.id b)).

Definition index_le (a b : Stored.t) : Prop := index_leb a b = true.

(** Insertion of a value at its place in the index. *)
Fixpoint index_insert (v : Stored.t) (index : list Stored.t) : list Stored.t :=
  match index with
  | [] => [v]
  | w :: rest =>
      if index_leb v w then v :: w :: rest else w :: index_insert v rest
  end.

Definition stored_values (st : ObjectStore) : list Stored.t :=
  (fun kv => {| Stored.id := fst kv; Stored.pending := snd kv |})
    <$> map_to_list (records st).

(** [store.index('timeToSend')] *)
Definition index_timeToSend (st : ObjectStore) : list Stored.t :=
  foldr index_insert [] (stored_values st).

(** [IDBKeyRange] *)
Record IDBKeyRange : Type := {
  lower : option Z;
  upper : option Z;
  lowerOpen : bool;
  upperOpen : bool
}.

(** [IDBKeyRange.upperBound(x)] *)
Definition upperBound (x : Z) : IDBKeyRange :=
  {| lower := None; upper := Some x; lowerOpen := true; upperOpen := false |}.

Definition includes (range : IDBKeyRange) (key : Z) : bool :=
  match lower range with
  | None => true
  | Some lo => if lowerOpen range then lo <? key else lo <=? key
  end
  &&
  match upper range with
  | None => true
  | Some hi => if upperOpen range then key <? hi else key <=? hi
  end.

(** [index.openCursor(keyRange)]: the records the cursor visits, in the
    order of the index. *)
Definition openCursor (range : IDBKeyRange) (index : list Stored.t)
  : list Stored.t :=
  List.filter (fun v => includes range (timeToSend (Stored.pending v))) index.

(** [SurveySubmission.withObjectStore]. Every caller names the one object
    store of the database. [action] yields the store it leaves behind and
    what it returns: [Some p] for a promise ending in [p], [None] for
    [undefined].
    - when the database opens, the outer promise follows the action's
      promise; [action(objectStore).then] on [undefined] raises a
      TypeError inside the open request's success handler, so the outer
      promise stays unsettled;
    - when it does not open, the handler logs and returns before
      [reject(event)] is reached. *)
Definition withObjectStore {A : Type} (env : Idb)
    (action : ObjectStore -> ObjectStore * option (Settlement A))
    (st : ObjectStore) : ObjectStore * Settlement A :=
  if db_opens env then
    match action st with
    | (st', Some p) => (st', p)
    | (st', None) =>
        (st', Unsettled (Some (TypeError "action(...) is undefined")))
    end
  else (st, Unsettled None).

(** [tries || 0] *)
Definition or_zero (tries : option Z) : Z :=
  match tries with
  | Some t => if t =? 0 then 0 else t
  | None => 0
  end.

(** [SurveySubmission.saveSurveyRecord] *)
Definition saveSurveyRecord (env : Idb) (now : Z)
    (record : SurveyRecord) (tries : option Z) (st : ObjectStore)
  : ObjectStore * Settlement bool :=
  let tries := or_zero tries in
  withObjectStore env (fun store =>
    let timeToSend := now + calculateSendingDelay tries in
    let pendingSurveyRecord :=
      {| surveyRecord := record; timeToSend := timeToSend; tries := tries |} in
    if requests_succeed env then
      match idb_add pendingSurveyRecord store with
      | Some (_, store') => (store', Some (Fulfilled true))
      | None => (store, Some (Rejected (ErrorObject "Failed to save record")))
      end
    else (store, Some (Rejected (ErrorObject "Failed to save record")))) st.

(** [SurveySubmission.deleteSurveyRecord] *)
Definition deleteSurveyRecord (env : Idb) (id : Z) (st : ObjectStore)
  : ObjectStore * Settlement unit :=
  withObjectStore env (fun store =>
    if requests_succeed env then
      (idb_delete id store, Some (Fulfilled tt))
    else (store, Some (Rejected RequestFailed))) st.

(** [SurveySubmission.updateTimeToSend]. For a missing key the get request
    succeeds with [undefined], and reading [record.tries] raises a
    TypeError in its success handler: nothing is written and neither
    [resolve] nor [reject] is called. *)
Definition updateTimeToSend (env : Idb) (now : Z) (id : Z) (st : ObjectStore)
  : ObjectStore * Settlement unit :=
  withObjectStore env (fun store =>
    if requests_succeed env then
      match idb_get id store with
      | Some record =>
          let tries' := tries (Stored.pending record) + 1 in
          let timeToSend' := now + calculateSendingDelay tries' in
          let record' :=
            {| Stored.id := Stored.id record;
               Stored.pending :=
                 {| surveyRecord := surveyRecord (Stored.pending record);
                    timeToSend := timeToSend';
                    tries := tries' |} |} in
          (idb_put record' store, Some (Fulfilled tt))
      | None =>
          (store, Some (Unsettled (Some (TypeError "record is undefined"))))
      end
    else (store, Some (Rejected RequestFailed))) st.

(** ** The submission client *)

(** [String.prototype.slice(start, end)]: negative positions count from
    the end, and both are clamped to the string. *)
Definition js_slice (s : string) (start : Z) (end_ : option Z) : string :=
  let len := Z.of_nat (String.length s) in
  let clamp (k : Z) := if k <? 0 then Z.max (len + k) 0 else Z.min k len in
  let from := clamp start in
  let to := clamp (match end_ with Some e => e | None => len end) in
  String.substring (Z.to_nat from) (Z.to_nat (Z.max (to - from) 0)) s.

(** What [sendSurveyRecord] is applied to: a survey record, or (as in
    [processQueue]) one of the [{id, surveyRecord}] entries. *)
Inductive Argument : Type :=
| OfSurveyRecord (r : SurveyRecord)
| OfEntry (e : Entry.t).

Record XhrRequest : Type := {
  method : string;
  url : string;
  async : bool;
  headers : list (string * string);
  timeout : Z;
  body : json (* the document given to [JSON.stringify] *)
}.

(** The event that ends a request, with [xhr.readyState] and [xhr.status]
    as the handler reads them. *)
Inductive XhrEvent : Type :=
| XhrLoad (readyState status : Z) (response : string)
| XhrError (status : Z)
| XhrTimeout (status : Z).

(** A load event is dispatched once the request is done
    ([readyState] 4). *)
Definition completed (ev : XhrEvent) : Prop :=
  match ev with
  | XhrLoad readyState _ _ => readyState = 4
  | _ => True
  end.

(** A [Response] object as [JSON.stringify] sees it. *)
Definition response_json (r : Response) : json :=
  JObj [("question"%string, JStr (question r));
        ("answer"%string, JStr (answer r))].

(** [for (var i = 0; i < responses.length; i++) data.responses.push(responses[i])],
    started at [i] with [fuel] iterations left. *)
Fixpoint push_responses (fuel : nat) (i : nat) (responses : list Response)
    (data_responses : list json) : list json :=
  match fuel with
  | O => data_responses
  | S fuel' =>
      if (i <? length responses)%nat then
        push_responses fuel' (S i) responses
          (data_responses ++
             [match responses !! i with
              | Some r => response_json r
              | None => JNull (* [undefined] serialises to [null] *)
              end])
      else data_responses
  end.

Section Client.

(** [Date.prototype.toISOString] of the host, on time values. *)
Variable toISOString : Z -> string.

(** The request [sendSurveyRecord] builds for a survey record. *)
Definition surveyRequest (r : SurveyRecord) : XhrRequest :=
  let url := (Settings.SERVER_URL +:+ Settings.SUBMIT_SURVEY_ACTION)%string in
  let method := "POST"%string in
  let dateTaken0 := toISOString (dateTaken r) in
  let dateTaken1 :=
    if String.eqb (js_slice dateTaken0 (-1) None) "Z"
    then js_slice dateTaken0 0 (Some (-1))
    else dateTaken0 in
  let data :=
    JObj [("date_taken"%string, JStr dateTaken1);
          ("participant_id"%string, participantId r);
          ("responses"%string,
            JArr (push_responses (length (responses r)) 0 (responses r) []));
          ("survey_type"%string, JStr (type r))] in
  {| method := method;
     url := url;
     async := true;
     headers := [("Content-Type"%string, "application/JSON"%string)];
     timeout := Settings.XHR_TIMEOUT;
     body := data |}.

(** [onLoadHandler], [onErrorHandler] and [onTimeoutHandler] *)
Definition xhr_settle (ev : XhrEvent) : Settlement string :=
  match ev with
  | XhrLoad readyState status response =>
      if readyState =? 4 then
        if status =? 204 then Fulfilled response
        else Rejected (HttpStatus status)
      else Unsettled None
  | XhrError status => Rejected (HttpStatus status)
  | XhrTimeout status => Rejected (HttpStatus status)
  end.

(** [SurveySubmission.sendSurveyRecord]: the request sent, if any, and the
    state of the returned promise once the network delivers [ev]. An
    entry has no [dateTaken] property, so for it [undefined.toISOString()]
    throws inside the promise executor: the promise is rejected and
    nothing is sent. *)
Definition sendSurveyRecord (a : Argument) (ev : XhrEvent)
  : option XhrRequest * Settlement string :=
  match a with
  | OfSurveyRecord r => (Some (surveyRequest r), xhr_settle ev)
  | OfEntry _ =>
      (None, Rejected (Thrown (TypeError "surveyRecord.dateTaken is undefined")))
  end.

End Client.

(** ** Free identifiers *)

(** The names the extension's scripts declare at top level. *)
Definition toplevel_declarations : list string :=
  ["SurveySubmission"; "withAllRecords"; "cesp";
   "setReadyForSurveysStorageValue"; "setSurveysShownDaily";
   "setSurveysShownWeekly"; "resetLastNotificationTimeStorageValue";
   "setupState"; "handleUninstallAlarm"; "resetSurveyDailyCount";
   "resetSurveyWeeklyCount"; "maybeShowConsentOrSetupSurvey";
   "storageUpdated"; "getParticipantId"; "getOperatingSystem";
   "clearNotifications"; "showSurveyNotification"; "loadSurvey";
   "handleCompletedSurvey"; "getConsentStatus"; "maybeShowConsentForm";
   "maybeShowSetupSurvey"; "showSurveyPrompt"]%string.

Definition declared (x : string) : bool :=
  existsb (String.eqb x) toplevel_declarations.

(** Two identifiers are used without a declaration in any enclosing
    function: [id] in the reactions of [processQueue] (in scope there are
    [response] or [error], [submissionPromise], [event], [cursor], [store],
    [surveysToSubmit], [index] and [keyRange]) and [processQueue] in
    [processQueueAlarm]. Both resolve in the global object; [Globals] is
    what they are bound to there, [None] when unbound. *)
Record Globals : Type := {
  global_id : option Z;
  global_processQueue : option (ObjectStore -> ObjectStore)
}.

(** The global object as the extension's scripts leave it. *)
Definition extension_globals : Globals :=
  {| global_id := None; global_processQueue := None |}.

(** ** The queue processor *)

(** [{id: cursor.value.id, surveyRecord: cursor.value.surveyRecord}] *)
Definition queue_entry (value : Stored.t) : Entry.t :=
  {| Entry.id := Stored.id value;
     Entry.surveyRecord := surveyRecord (Stored.pending value) |}.

(** The cursor's success handler: one call per record the cursor visits,
    then the call with a null cursor. *)
Fixpoint cursor_onsuccess (cursor : list Stored.t)
    (surveysToSubmit : list Entry.t) : list Entry.t :=
  match cursor with
  | value :: rest =>
      cursor_onsuccess rest (surveysToSubmit ++ [queue_entry value])
  | [] => surveysToSubmit
  end.

(** [submissionPromise.then(function(response) {...}, function(error) {...})]:
    the store afterwards and the promise [then] returns. Evaluating the
    argument [id] comes first in either reaction. *)
Definition reconcile (G : Globals) (env : Idb) (now : Z)
    (submissionPromise : Settlement string) (st : ObjectStore)
  : ObjectStore * Settlement unit :=
  match submissionPromise with
  | Fulfilled _ =>
      match global_id G with
      | Some id => deleteSurveyRecord env id st
      | None => (st, Rejected (Thrown (ReferenceError "id")))
      end
  | Rejected _ =>
      match global_id G with
      | Some id => updateTimeToSend env now id st
      | None => (st, Rejected (Thrown (ReferenceError "id")))
      end
  | Unsettled _ => (st, Unsettled None)
  end.

(** The reactions of all submission promises, in the order of the array;
    [clock i] is [Date.now()] when the [i]-th one runs. *)
Fixpoint reconcile_all (G : Globals) (env : Idb) (clock : nat -> Z) (i : nat)
    (submissionPromises : list (Settlement string)) (st : ObjectStore)
  : ObjectStore * list (Settlement unit) :=
  match submissionPromises with
  | [] => (st, [])
  | p :: rest =>
      let '(st1, outcome) := reconcile G env (clock i) p st in
      let '(st2, outcomes) := reconcile_all G env clock (S i) rest st1 in
      (st2, outcome :: outcomes)
  end.

(** What one invocation of the queue processor does. *)
Record QueueRun : Type := {
  run_store : ObjectStore;                (* the store afterwards *)
  run_selected : list Entry.t;            (* [surveysToSubmit] *)
  run_requests : list XhrRequest;         (* requests put on the network *)
  run_outcomes : list (Settlement unit);  (* one per [then] *)
  run_promise : Settlement unit           (* the promise returned *)
}.

Section Processor.

Variable toISOString : Z -> string.

(** [SurveySubmission.processQueue]. [now] is the clock at the scan and
    [net] the event the network would deliver for each entry's request.
    The action given to [withObjectStore] registers the cursor handler and
    returns [undefined], so the returned promise is never settled; the
    cursor still runs. The argument of [Promise.all] is read without the
    semicolon that follows it. [Array.prototype.map] applies [sendSurveyRecord] to
    the entries themselves. *)
Definition processQueue (G : Globals) (env : Idb) (now : Z) (clock : nat -> Z)
    (net : Entry.t -> XhrEvent) (st : ObjectStore) : QueueRun :=
  if db_opens env then
    let index := index_timeToSend st in
    let keyRange := upperBound now in
    let surveysToSubmit := cursor_onsuccess (openCursor keyRange index) [] in
    let sent :=
      (fun e => sendSurveyRecord toISOString (OfEntry e) (net e))
        <$> surveysToSubmit in
    let '(st', outcomes) := reconcile_all G env clock 0 (snd <$> sent) st in
    {| run_store := st';
       run_selected := surveysToSubmit;
       run_requests := omap fst sent;
       run_outcomes := outcomes;
       run_promise := snd (withObjectStore env (fun store => (store, None)) st) |}
  else
    {| run_store := st;
       run_selected := [];
       run_requests := [];
       run_outcomes := [];
       run_promise := Unsettled None |}.

End Processor.

(** ** The wake-up trigger *)

Module Alarm.
Record t : Type := {
  name : string;
  scheduledTime : Z;
  periodInMinutes : option Z
}.
End Alarm.

(** [SurveySubmission.processQueueAlarm] *)
Definition processQueueAlarm (G : Globals) (alarm : Alarm.t) (st : ObjectStore)
  : ObjectStore * Completion :=
  if negb (String.eqb (Alarm.name alarm) Settings.QUEUE_ALARM_NAME) then
    (st, Returned)
  else
    match global_processQueue G with
    | Some processQueue => (processQueue st, Returned)
    | None => (st, Threw (ReferenceError "processQueue"))
    end.

(** The argument of [chrome.alarms.create]. *)
Record AlarmCreateInfo : Type := {
  when : option Z;
  delayInMinutes : option Z;
  every : option Z (* [periodInMinutes] *)
}.

Module Cesp.
Definition SURVEY_THROTTLE_DAILY_RESET_ALARM : string := "dailySurveyCountReset".
Definition SURVEY_THROTTLE_WEEKLY_RESET_ALARM : string := "weeklySurveyCountReset".
Definition NOTIFICATION_ALARM_NAME : string := "notificationTimeout".
Definition UNINSTALL_ALARM_NAME : string := "uninstallAlarm".
End Cesp.

(** The alarms [setupState] creates ([midnight] is the start of the
    current day); its writes to [chrome.storage.local] are left out. *)
Definition setupState (reason : string) (midnight : Z)
  : list (string * AlarmCreateInfo) :=
  if negb (String.eqb reason "install") then []
  else
    [(Cesp.UNINSTALL_ALARM_NAME,
       {| when := None; delayInMinutes := Some 172800; every := None |});
     (Cesp.SURVEY_THROTTLE_DAILY_RESET_ALARM,
       {| when := Some midnight; delayInMinutes := None; every := Some 1440 |});
     (Cesp.SURVEY_THROTTLE_WEEKLY_RESET_ALARM,
       {| when := Some midnight; delayInMinutes := None; every := Some 10080 |});
     (Settings.QUEUE_ALARM_NAME,
       {| when := None; delayInMinutes := Some 1; every := Some 20 |})].

(** ** A host [toISOString]

    [Date.prototype.toISOString] for the proleptic Gregorian calendar in
    UTC, used to run the client on concrete records. *)

Definition digit (n : Z) : string :=
  String (ascii_of_nat (48 + Z.to_nat (n mod 10))) EmptyString.

(** [n] in decimal, as its last [width] digits. *)
Fixpoint digits (width : nat) (n : Z) : string :=
  match width with
  | O => EmptyString
  | S w => (digits w (n / 10) +:+ digit n)%string
  end.

(** Year, month and day of the given day number (days since the epoch). *)
Definition civil_from_days (day : Z) : Z * Z * Z :=
  let shifted := day + 719468 in
  let era := shifted / 146097 in
  let doe := shifted mod 146097 in
  let yoe := (doe - doe / 1460 + doe / 36524 - doe / 146096) / 365 in
  let doy := doe - (365 * yoe + yoe / 4 - yoe / 100) in
  let mp := (5 * doy + 2) / 153 in
  let d := doy - (153 * mp + 2) / 5 + 1 in
  let m := if mp <? 10 then mp + 3 else mp - 9 in
  let y := yoe + era * 400 + (if m <=? 2 then 1 else 0) in
  (y, m, d).

Definition toISOString_utc (t : Z) : string :=
  let '(y, m, d) := civil_from_days (t / 86400000) in
  let ms := t mod 86400000 in
  let sign : string := if y <? 0 then "-"%string else "+"%string in
  let year :=
    if (0 <=? y) && (y <=? 9999) then digits 4 y
    else (sign +:+ digits 6 (Z.abs y))%string in
  (year +:+ "-" +:+ digits 2 m +:+ "-" +:+ digits 2 d +:+ "T"
   +:+ digits 2 (ms / 3600000) +:+ ":" +:+ digits 2 (ms / 60000 mod 60)
   +:+ ":" +:+ digits 2 (ms / 1000 mod 60) +:+ "." +:+ digits 3 (ms mod 1000)
   +:+ "Z")%string.

(** ** Histories of the store

    The three writers of the object store, as data, so that properties of
    every sequence of calls can be stated. Each call comes with what the
    storage does during it. *)

Inductive Operation : Type :=
| Save (now : Z) (record : SurveyRecord) (tries : option Z)
| Delete (id : Z)
| Reschedule (now : Z) (id : Z).

Definition apply_operation (env : Idb) (op : Operation) (st : ObjectStore)
  : ObjectStore :=
  match op with
  | Save now record tries => fst (saveSurveyRecord env now record tries st)
  | Delete id => fst (deleteSurveyRecord env id st)
  | Reschedule now id => fst (updateTimeToSend env now id st)
  end.

Fixpoint run_operations (history : list (Idb * Operation)) (st : ObjectStore)
  : ObjectStore :=
  match history with
  | [] => st
  | (env, op) :: rest => run_operations rest (apply_operation env op st)
  end.


(** The clock readings of a history never go back from [base], and no
    record is saved with a negative count. *)
Fixpoint clock_ordered (base : Z) (history : list (Idb * Operation)) : Prop :=
  match history with
  | [] => True
  | (_, Save now _ given) :: rest =>
      base <= now /\ 0 <= default 0 given /\ clock_ordered now rest
  | (_, Delete _) :: rest => clock_ordered base rest
  | (_, Reschedule now _) :: rest => base <= now /\ clock_ordered now rest
  end.

(** ** The background page

    The event page of the extension: its state in the browser and the
    handlers that do not depend on the scripts missing here
    ([constants.js], the URL handler). *)

(** A value kept in [chrome.storage.local]: a boolean or a JSON value. *)
Inductive value : Type :=
| VBool (b : bool)
| VJson (j : json).

(** Whether [!x] is false, for the result [x] of a property lookup
    ([None] is [undefined]). *)
Definition truthy (x : option value) : bool :=
  match x with
  | None => false
  | Some (VBool b) => b
  | Some (VJson JNull) => false
  | Some (VJson (JNum n)) => negb (n =? 0)
  | Some (VJson (JStr s)) => negb (String.eqb s EmptyString)
  | Some (VJson (JArr _)) => true
  | Some (VJson (JObj _)) => true
  end.

(** [x === c] for a value [x] read from storage. Arrays and objects read
    from storage are fresh copies, equal to nothing else. *)
Definition strict_eq (x c : option value) : bool :=
  match x, c with
  | None, None => true
  | Some (VBool a), Some (VBool b) => Bool.eqb a b
  | Some (VJson JNull), Some (VJson JNull) => true
  | Some (VJson (JNum a)), Some (VJson (JNum b)) => a =? b
  | Some (VJson (JStr a)), Some (VJson (JStr b)) => String.eqb a b
  | _, _ => false
  end.

(** What the page has done to the browser. *)
Record Browser : Type := {
  local : gmap string value;              (* [chrome.storage.local] *)
  alarms : gmap string AlarmCreateInfo;   (* [chrome.alarms], by name *)
  notifications : gset string;            (* notifications on display *)
  tabs : list string;                     (* pages opened, oldest first *)
  watching_setup : bool;                  (* [storageUpdated] listens to
                                             [chrome.storage.onChanged] *)
  uninstalled : bool                      (* [uninstallSelf()] was called *)
}.

(** [chrome.storage.local.set(items)] for a single item. *)
Definition storage_set (key : string) (v : value) (b : Browser) : Browser :=
  {| local := <[key := v]> (local b);
     alarms := alarms b;
     notifications := notifications b;
     tabs := tabs b;
     watching_setup := watching_setup b;
     uninstalled := uninstalled b |}.

(** [chrome.alarms.create(name, info)]: an alarm of that name is replaced. *)
Definition alarms_create (name : string) (info : AlarmCreateInfo) (b : Browser)
  : Browser :=
  {| local := local b;
     alarms := <[name := info]> (alarms b);
     notifications := notifications b;
     tabs := tabs b;
     watching_setup := watching_setup b;
     uninstalled := uninstalled b |}.

(** [chrome.tabs.create({'url': chrome.extension.getURL(path)})] *)
Definition tabs_create (path : string) (b : Browser) : Browser :=
  {| local := local b;
     alarms := alarms b;
     notifications := notifications b;
     tabs := tabs b ++ [path];
     watching_setup := watching_setup b;
     uninstalled := uninstalled b |}.

(** [chrome.management.uninstallSelf()] *)
Definition uninstallSelf (b : Browser) : Browser :=
  {| local := local b;
     alarms := alarms b;
     notifications := notifications b;
     tabs := tabs b;
     watching_setup := watching_setup b;
     uninstalled := true |}.

Module Page.
Definition NOTIFICATION_TAG : string := "chromeSurvey".
Definition READY_FOR_SURVEYS : string := "readyForSurveys".
Definition PARTICIPANT_ID_LOOKUP : string := "participantId".
Definition LAST_NOTIFICATION_TIME : string := "lastNotificationTime".
End Page.

(** [setReadyForSurveysStorageValue] *)
Definition setReadyForSurveysStorageValue (newState : bool) (b : Browser)
  : Browser :=
  storage_set Page.READY_FOR_SURVEYS (VBool newState) b.

(** [resetLastNotificationTimeStorageValue] *)
Definition resetLastNotificationTimeStorageValue (now : Z) (b : Browser)
  : Browser :=
  storage_set Page.LAST_NOTIFICATION_TIME (VJson (JNum now)) b.

(** [handleUninstallAlarm] *)
Definition handleUninstallAlarm (alarm : Alarm.t) (b : Browser) : Browser :=
  if String.eqb (Alarm.name alarm) Cesp.UNINSTALL_ALARM_NAME
  then uninstallSelf b else b.

(** [clearNotifications]; [alarm] is [None] when it is called without an
    argument. *)
Definition clearNotifications (alarm : option Alarm.t) (b : Browser) : Browser :=
  match alarm with
  | Some a =>
      if negb (String.eqb (Alarm.name a) Cesp.NOTIFICATION_ALARM_NAME)
      then b
      else
        {| local := local b;
           alarms := delete Cesp.NOTIFICATION_ALARM_NAME (alarms b);
           notifications := notifications b ∖ {[ Page.NOTIFICATION_TAG ]};
           tabs := tabs b;
           watching_setup := watching_setup b;
           uninstalled := uninstalled b |}
  | None =>
      {| local := local b;
         alarms := delete Cesp.NOTIFICATION_ALARM_NAME (alarms b);
         notifications := notifications b ∖ {[ Page.NOTIFICATION_TAG ]};
         tabs := tabs b;
         watching_setup := watching_setup b;
         uninstalled := uninstalled b |}
  end.

(** The characters participant identifiers are drawn from. *)
Definition charset : string :=
  "0123456789ABCDEFGHIJKLMNOPQRSTUVWXTZabcdefghiklmnopqrstuvwxyz".

(** The characters of a string, in order. *)
Definition characters (s : string) : list ascii := list_ascii_of_string s.

(** [s.charAt(i)]: the empty string outside the string. *)
Definition charAt (s : string) (i : nat) : string :=
  match String.get i s with
  | Some c => String c EmptyString
  | None => EmptyString
  end.

(** [for (var i = 0; i < 100; i++) participantId += charset.charAt(rand)],
    started at [i] with [fuel] iterations left; [draws i] is
    [Math.floor(Math.random() * charset.length)] in iteration [i]. *)
Fixpoint draw_participantId (fuel : nat) (i : nat) (draws : nat -> nat)
    (participantId : string) : string :=
  match fuel with
  | O => participantId
  | S fuel' =>
      if (i <? 100)%nat then
        draw_participantId fuel' (S i) draws
          (participantId +:+ charAt charset (draws i))
      else participantId
  end.

(** [getParticipantId]: the browser afterwards and the value the promise
    resolves with. After [resolve(lookup[...])] the callback goes on: it
    draws an identifier, stores it, and its second [resolve] has no
    effect on a promise already resolved. *)
Definition getParticipantId (draws : nat -> nat) (b : Browser)
  : Browser * value :=
  let lookup := local b !! Page.PARTICIPANT_ID_LOOKUP in
  let participantId := draw_participantId 100 0 draws EmptyString in
  let b' := storage_set Page.PARTICIPANT_ID_LOOKUP (VJson (JStr participantId)) b in
  match lookup with
  | Some stored =>
      if truthy lookup then (b', stored)
      else (b', VJson (JStr participantId))
  | None => (b', VJson (JStr participantId))
  end.

(** The message a survey page sends on completion. *)
Module Message.
Record t : Type := {
  survey_type : string;
  responses : list Response
}.
End Message.

(** The reaction of [handleCompletedSurvey] to the participant identifier:
    [taken] is the clock at [new Date], [now] the clock inside
    [saveSurveyRecord]. *)
Definition handleCompletedSurvey_then (env : Idb) (taken now : Z)
    (message : Message.t) (participantId : json) (st : ObjectStore)
  : ObjectStore * Settlement bool :=
  let record :=
    {| type := Message.survey_type message;
       participantId := participantId;
       dateTaken := taken;
       responses := Message.responses message |} in
  saveSurveyRecord env now record None st.

Section PageHandlers.

(** The property keys [cesp.SURVEYS_SHOWN_TODAY] and
    [cesp.SURVEYS_SHOWN_THIS_WEEK] evaluate to; the settings of the page
    do not define them. *)
Variable SURVEYS_SHOWN_TODAY : string.
Variable SURVEYS_SHOWN_THIS_WEEK : string.

(** [setSurveysShownDaily] *)
Definition setSurveysShownDaily (newCount : Z) (b : Browser) : Browser :=
  storage_set SURVEYS_SHOWN_TODAY (VJson (JNum newCount)) b.

(** [setSurveysShownWeekly] *)
Definition setSurveysShownWeekly (newCount : Z) (b : Browser) : Browser :=
  storage_set SURVEYS_SHOWN_THIS_WEEK (VJson (JNum newCount)) b.

(** [resetSurveyDailyCount] *)
Definition resetSurveyDailyCount (alarm : Alarm.t) (b : Browser) : Browser :=
  if String.eqb (Alarm.name alarm) Cesp.SURVEY_THROTTLE_DAILY_RESET_ALARM
  then setSurveysShownDaily 0 b else b.

(** [resetSurveyWeeklyCount] *)
Definition resetSurveyWeeklyCount (alarm : Alarm.t) (b : Browser) : Browser :=
  if String.eqb (Alarm.name alarm) Cesp.SURVEY_THROTTLE_WEEKLY_RESET_ALARM
  then setSurveysShownWeekly 0 b else b.

(** [setupState] on the browser: the storage it writes and the alarms it
    creates, in the order of the source. *)
Definition setupState_page (reason : string) (midnight : Z) (b : Browser)
  : Browser :=
  if negb (String.eqb reason "install") then b
  else
    let b1 := setReadyForSurveysStorageValue false b in
    let b2 := alarms_create Cesp.UNINSTALL_ALARM_NAME
                {| when := None; delayInMinutes := Some 172800; every := None |}
                b1 in
    let b3 := setSurveysShownDaily 0 b2 in
    let b4 := setSurveysShownWeekly 0 b3 in
    let b5 := alarms_create Cesp.SURVEY_THROTTLE_DAILY_RESET_ALARM
                {| when := Some midnight; delayInMinutes := None;
                   every := Some 1440 |} b4 in
    let b6 := alarms_create Cesp.SURVEY_THROTTLE_WEEKLY_RESET_ALARM
                {| when := Some midnight; delayInMinutes := None;
                   every := Some 10080 |} b5 in
    alarms_create Settings.QUEUE_ALARM_NAME
      {| when := None; delayInMinutes := Some 1; every := Some 20 |} b6.

(** The listeners of [chrome.alarms.onAlarm], each called with the alarm:
    those of the page in the order they are added, and
    [SurveySubmission.processQueueAlarm] on the queue store. *)
Definition onAlarm (G : Globals) (alarm : Alarm.t)
    (state : Browser * ObjectStore) : Browser * ObjectStore * Completion :=
  let b1 := handleUninstallAlarm alarm (fst state) in
  let b2 := resetSurveyDailyCount alarm b1 in
  let b3 := resetSurveyWeeklyCount alarm b2 in
  let b4 := clearNotifications (Some alarm) b3 in
  let '(st, completion) := processQueueAlarm G alarm (snd state) in
  (b4, st, completion).

(** The keys and values of [constants.js] the consent check reads. *)
Variable CONSENT_KEY : string.
Variable SETUP_KEY : string.
Variable CONSENT_PENDING : option value.
Variable CONSENT_REJECTED : option value.
Variable CONSENT_GRANTED : option value.
Variable SETUP_PENDING : option value.
Variable SETUP_COMPLETED : option value.

(** [setupCallback] of [maybeShowConsentOrSetupSurvey]; [os] is what
    [getOperatingSystem] resolves with. *)
Definition setupCallback (os : string) (b : Browser) : Browser :=
  let lookup := local b !! SETUP_KEY in
  if negb (truthy lookup) || strict_eq lookup SETUP_PENDING then
    tabs_create ("surveys/setup.html?os=" +:+ os) b
  else if strict_eq lookup SETUP_COMPLETED then
    setReadyForSurveysStorageValue true b
  else b.

(** [maybeShowConsentOrSetupSurvey] *)
Definition maybeShowConsentOrSetupSurvey (os : string) (b : Browser) : Browser :=
  let lookup := local b !! CONSENT_KEY in
  if negb (truthy lookup) || strict_eq lookup CONSENT_PENDING then
    tabs_create ("consent.html?os=" +:+ os)
      {| local := local b;
         alarms := alarms b;
         notifications := notifications b;
         tabs := tabs b;
         watching_setup := true;
         uninstalled := uninstalled b |}
  else if strict_eq lookup CONSENT_REJECTED then uninstallSelf b
  else if strict_eq lookup CONSENT_GRANTED then setupCallback os b
  else b.

End PageHandlers.

(** A browser in which the extension has been running for a while. *)
Definition sample_browser : Browser :=
  {| local := <[Page.PARTICIPANT_ID_LOOKUP := VJson (JStr "participant-7")]>
                (<[Page.READY_FOR_SURVEYS := VBool true]> ∅);
     alarms := <[Settings.QUEUE_ALARM_NAME :=
                   {| when := None; delayInMinutes := Some 1;
                      every := Some 20 |}]> ∅;
     notifications := {[ Page.NOTIFICATION_TAG ]};
     tabs := [];
     watching_setup := false;
     uninstalled := false |}.

(** ** Sample data *)

Definition sample_record : SurveyRecord :=
  {| type := "ssl-overridable-proceed";
     participantId := JStr "participant-7";
     dateTaken := 1000000000000;
     responses := [ {| question := "q1"; answer := "a1" |};
                    {| question := "q2"; answer := "a2" |} ] |}.

Definition sample_pending (timeToSend tries : Z) : PendingSurveyRecord :=
  {| surveyRecord := sample_record; timeToSend := timeToSend; tries := tries |}.

(** Three pending records: two due at time 1000, one not. *)
Definition sample_store : ObjectStore :=
  {| records :=
       <[1 := sample_pending 900 0]>
         (<[2 := sample_pending 500 1]>
            (<[3 := sample_pending 5000 2]> ∅));
     keyGenerator := 4 |}.

(** A server that answers every request with 204. *)
Definition always_204 (e : Entry.t) : XhrEvent := XhrLoad 4 204 EmptyString.

(** ** Backoff scheduler: properties *)

Lemma calculateSendingDelay_nonneg (tries : Z) :
  0 <= tries -> 0 <= calculateSendingDelay tries.
Proof.
  intros Ht. unfold calculateSendingDelay.
  assert (0 < 2 ^ tries) by (apply Z.pow_pos_nonneg; lia). lia.
Qed.

Lemma calculateSendingDelay_lt (a b : Z) :
  0 <= a -> a < b -> calculateSendingDelay a < calculateSendingDelay b.
Proof.
  intros Ha Hab. unfold calculateSendingDelay.
  assert (2 ^ a < 2 ^ b) by (apply Z.pow_lt_mono_r; lia). lia.
Qed.

(** ** The delay in binary64 *)

(** Up to 42 tries the binary64 delay is the integer
    [(2^tries - 1) * 60000], exactly. *)
Lemma calculateSendingDelay_binary64_value (tries : Z) :
  0 <= tries <= 42 ->
  binary64_to_Z (calculateSendingDelay_binary64 tries)
    = Some ((2 ^ tries - 1) * 60000).
Proof.
  intros Hrange.
  assert (Hall : forallb
            (fun n => bool_decide
               (binary64_to_Z (calculateSendingDelay_binary64 (Z.of_nat n))
                  = Some ((2 ^ Z.of_nat n - 1) * 60000)))
            (seq 0 43) = true) by (vm_compute; reflexivity).
  rewrite forallb_forall in Hall.
  specialize (Hall (Z.to_nat tries)). rewrite Z2Nat.id in Hall by lia.
  eapply bool_decide_eq_true_1, Hall, in_seq. lia.
Qed.

(** The integer model and the binary64 delay are the same number for 0 to
    42 tries. *)
Lemma calculateSendingDelay_agrees (tries : Z) :
  0 <= tries <= 42 ->
  binary64_to_Z (calculateSendingDelay_binary64 tries)
    = Some (calculateSendingDelay tries).
Proof. apply calculateSendingDelay_binary64_value. Qed.

Lemma ascending_lookup (l : list float) (i j : nat) (x y : float) :
  ascending l = true -> (i < j)%nat ->
  l !! i = Some x -> l !! j = Some y -> PrimFloat.ltb x y = true.
Proof.
  revert i j. induction l as [|z l IH]; intros i j Hasc Hij Hi Hj; [ done | ].
  cbn [ascending] in Hasc. apply andb_true_iff in Hasc as [Hhead Htail].
  destruct j as [|j]; [ lia | ]. cbn in Hj.
  destruct i as [|i]; cbn in Hi.
  - injection Hi as <-. rewrite forallb_forall in Hhead.
    apply Hhead, list_elem_of_In. by eapply list_elem_of_lookup_2.
  - apply (IH i j); [ done | lia | done | done ].
Qed.

Lemma delays_lookup (n i : nat) :
  (i < n)%nat ->
  delays n !! i = Some (calculateSendingDelay_binary64 (Z.of_nat i)).
Proof.
  intros Hi. unfold delays. rewrite list_lookup_fmap.
  by rewrite lookup_seq_lt.
Qed.

(** From 1024 on the power of two is [Infinity]. *)
Lemma pow2_binary64_overflow (n : Z) :
  1024 <= n -> pow2_binary64 n = infinity.
Proof.
  intros Hn. destruct n as [|p|p]; [ lia | | lia ].
  cbn [pow2_binary64].
  destruct (Pos.eq_dec p 1024%positive) as [-> | Hne];
    [ vm_compute; reflexivity | ].
  assert (Hp : p = (Z.to_pos (Z.pos p - 1024) + 1024)%positive).
  { apply Pos2Z.inj. rewrite Pos2Z.inj_add, Z2Pos.id; lia. }
  rewrite Hp, Pos.iter_add.
  assert (Hbase : Pos.iter (PrimFloat.mul 2%float) 1%float 1024%positive
                  = infinity)
    by (vm_compute; reflexivity).
  rewrite Hbase.
  apply Pos.iter_invariant; [ | done ].
  intros x ->. reflexivity.
Qed.

(** From 1009 tries on the delay is [Infinity]. *)
Lemma calculateSendingDelay_binary64_overflow (tries : Z) :
  1009 <= tries -> calculateSendingDelay_binary64 tries = infinity.
Proof.
  intros Hn. destruct (Z.le_gt_cases 1024 tries) as [Hbig|Hsmall].
  - unfold calculateSendingDelay_binary64.
    rewrite pow2_binary64_overflow by done. reflexivity.
  - assert (Htries : tries = 1009 + Z.of_nat (Z.to_nat (tries - 1009))) by lia.
    assert (Hbound : (Z.to_nat (tries - 1009) < 15)%nat) by lia.
    rewrite Htries. generalize dependent (Z.to_nat (tries - 1009)).
    intros n _ Hbound.
    do 15 (destruct n as [|n]; [ vm_compute; reflexivity | ]). lia.
Qed.

(** The delay grows strictly from every count up to 1008. *)
Lemma calculateSendingDelay_binary64_lt (tries later : Z) :
  0 <= tries <= 1008 -> tries < later ->
  PrimFloat.ltb (calculateSendingDelay_binary64 tries)
    (calculateSendingDelay_binary64 later) = true.
Proof.
  intros Hrange Hlt.
  assert (Hasc : ascending (delays 1010) = true) by (vm_compute; reflexivity).
  assert (Hstep : forall j : nat,
            (Z.to_nat tries < j)%nat -> (j < 1010)%nat ->
            PrimFloat.ltb (calculateSendingDelay_binary64 tries)
              (calculateSendingDelay_binary64 (Z.of_nat j)) = true).
  { intros j Hij Hj.
    apply (ascending_lookup (delays 1010) (Z.to_nat tries) j);
      [ done | done | | by apply delays_lookup ].
    rewrite delays_lookup by lia. by rewrite Z2Nat.id by lia. }
  destruct (Z.le_gt_cases 1009 later) as [Hbig|Hsmall].
  - rewrite (calculateSendingDelay_binary64_overflow later) by done.
    rewrite <- (calculateSendingDelay_binary64_overflow 1009) by lia.
    apply (Hstep 1009%nat); lia.
  - specialize (Hstep (Z.to_nat later)). rewrite Z2Nat.id in Hstep by lia.
    apply Hstep; lia.
Qed.

Lemma binary64_ltb_leb (x y : float) :
  PrimFloat.ltb x y = true -> PrimFloat.leb x y = true.
Proof.
  rewrite ltb_spec, leb_spec. unfold SFltb, SFleb.
  by destruct (SFcompare (Prim2SF x) (Prim2SF y)) as [[]|].
Qed.

(** The delay never shrinks with the count of tries: what the schedule of
    the queue needs of it holds of the binary64 delay for every count. *)
Lemma calculateSendingDelay_binary64_le (tries later : Z) :
  0 <= tries <= later ->
  PrimFloat.leb (calculateSendingDelay_binary64 tries)
    (calculateSendingDelay_binary64 later) = true.
Proof.
  intros Hrange.
  destruct (Z.le_gt_cases 1009 tries) as [Hbig|Hsmall].
  - rewrite !calculateSendingDelay_binary64_overflow by lia. reflexivity.
  - destruct (Z.eq_dec tries later) as [<- | Hne].
    + assert (Hall : forallb
                (fun n => PrimFloat.leb
                   (calculateSendingDelay_binary64 (Z.of_nat n))
                   (calculateSendingDelay_binary64 (Z.of_nat n)))
                (seq 0 1009) = true) by (vm_compute; reflexivity).
      rewrite forallb_forall in Hall.
      specialize (Hall (Z.to_nat tries)). rewrite Z2Nat.id in Hall by lia.
      apply Hall, in_seq. lia.
    + apply binary64_ltb_leb, calculateSendingDelay_binary64_lt; lia.
Qed.

(** C2, as stated, fails on the binary64 delay: after 43 tries it is
    527765581332419968, not (2^43 - 1) * 60000 = 527765581332420000, and
    after 1009 and 1010 tries it is [Infinity] both times, so it does not
    grow. *)
Lemma calculateSendingDelay_binary64_not_exact :
  binary64_to_Z (calculateSendingDelay_binary64 43)
    = Some 527765581332419968 /\
  binary64_to_Z (calculateSendingDelay_binary64 43)
    <> Some ((2 ^ 43 - 1) * 60000) /\
  PrimFloat.ltb (calculateSendingDelay_binary64 1009)
    (calculateSendingDelay_binary64 1010) = false.
Proof.
  split; [ vm_compute; reflexivity | ].
  split; [ | vm_compute; reflexivity ].
  intros Heq. vm_compute in Heq. discriminate Heq.
Qed.

(** C2 (as the code has it). For 0 to 42 tries the delay is exactly
    (2^tries - 1) * 60000 milliseconds; it is 0 after no tries and 900000
    after four; and the delay after [tries] tries is strictly below the
    delay after any larger count as long as [tries] is at most 1008. *)
Theorem calculateSendingDelay_binary64_backoff (tries : Z) :
  (0 <= tries <= 42 ->
   binary64_to_Z (calculateSendingDelay_binary64 tries)
     = Some ((2 ^ tries - 1) * 60000)) /\
  binary64_to_Z (calculateSendingDelay_binary64 0) = Some 0 /\
  binary64_to_Z (calculateSendingDelay_binary64 4) = Some 900000 /\
  (forall later : Z,
      0 <= tries <= 1008 -> tries < later ->
      PrimFloat.ltb (calculateSendingDelay_binary64 tries)
        (calculateSendingDelay_binary64 later) = true).
Proof.
  split; [ apply calculateSendingDelay_binary64_value | ].
  split; [ vm_compute; reflexivity | ].
  split; [ vm_compute; reflexivity | ].
  intros later Hrange Hlt. by apply calculateSendingDelay_binary64_lt.
Qed.

Lemma calculateSendingDelay_binary64_backoff_witness :
  0 <= 3 <= 42 /\
  binary64_to_Z (calculateSendingDelay_binary64 3) = Some 420000 /\
  PrimFloat.ltb (calculateSendingDelay_binary64 3)
    (calculateSendingDelay_binary64 2000) = true.
Proof.
  destruct (calculateSendingDelay_binary64_backoff 3) as (Hvalue & _ & _ & Hlt).
  split; [ lia | ].
  split; [ exact (Hvalue ltac:(lia)) | apply Hlt; lia ].
Defined.

(** ** The store: invariant and operations *)


(** The generator's next key is not in use. *)
Lemma keyGenerator_fresh (st : ObjectStore) :
  store_wf st -> records st !! keyGenerator st = None.
Proof.
  intros [_ Hwf].
  destruct (records st !! keyGenerator st) as [p|] eqn:Hk; [ | done ].
  apply Hwf in Hk. lia.
Qed.

Lemma idb_add_fresh (value : PendingSurveyRecord) (st : ObjectStore) :
  store_wf st ->
  idb_add value st =
    Some (keyGenerator st,
          {| records := <[keyGenerator st := value]> (records st);
             keyGenerator := keyGenerator st + 1 |}).
Proof.
  intros Hwf. unfold idb_add. by rewrite keyGenerator_fresh.
Qed.

Lemma idb_add_wf (value : PendingSurveyRecord) (st st' : ObjectStore) (key : Z) :
  store_wf st ->
  idb_add value st = Some (key, st') -> store_wf st'.
Proof.
  intros Hwf Hadd. rewrite idb_add_fresh in Hadd by done.
  destruct Hwf as [Hpos Hwf].
  injection Hadd as <- <-. split; [ cbn; lia | ]. intros k p. cbn.
  rewrite lookup_insert. case_decide as Hk.
  - intros _. subst k. lia.
  - intros Hp. apply Hwf in Hp. lia.
Qed.

Lemma idb_put_wf (value : Stored.t) (st : ObjectStore) :
  store_wf st -> 0 < Stored.id value -> store_wf (idb_put value st).
Proof.
  intros [Hgen Hwf] Hpos. unfold idb_put. split; cbn.
  - destruct (keyGenerator st <=? Stored.id value) eqn:Hg; lia.
  - intros k p. rewrite lookup_insert. case_decide as Hk.
    + intros _. subst k.
      destruct (keyGenerator st <=? Stored.id value) eqn:Hg; lia.
    + intros Hp. apply Hwf in Hp.
      destruct (keyGenerator st <=? Stored.id value) eqn:Hg; lia.
Qed.

Lemma idb_delete_wf (key : Z) (st : ObjectStore) :
  store_wf st -> store_wf (idb_delete key st).
Proof.
  intros [Hgen Hwf]. split; [ done | ].
  intros k p. unfold idb_delete. cbn. intros Hp.
  apply lookup_delete_Some in Hp as [_ Hp]. by apply Hwf in Hp.
Qed.

(** A key below the generator's number leaves the generator alone. *)
Lemma idb_put_existing (value : Stored.t) (st : ObjectStore) :
  Stored.id value < keyGenerator st ->
  idb_put value st =
    {| records := <[Stored.id value := Stored.pending value]> (records st);
       keyGenerator := keyGenerator st |}.
Proof.
  intros Hlt. unfold idb_put.
  destruct (keyGenerator st <=? Stored.id value) eqn:Hg; [ lia | done ].
Qed.

Lemma or_zero_default (tries : option Z) : or_zero tries = default 0 tries.
Proof.
  destruct tries as [t|]; cbn; [ | done ].
  destruct (t =? 0) eqn:Ht; lia.
Qed.

(** ** Saving a record *)



Lemma saveSurveyRecord_wf
    (env : Idb) (now : Z) (record : SurveyRecord) (tries : option Z)
    (st : ObjectStore) :
  store_wf st ->
  store_wf (fst (saveSurveyRecord env now record tries st)).
Proof.
  intros Hwf. unfold saveSurveyRecord, withObjectStore.
  destruct (db_opens env); [ | done ].
  destruct (requests_succeed env); [ | done ].
  rewrite idb_add_fresh by done. cbn.
  eapply idb_add_wf; [ done | by apply idb_add_fresh ].
Qed.

Lemma deleteSurveyRecord_wf (env : Idb) (id : Z) (st : ObjectStore) :
  store_wf st -> store_wf (fst (deleteSurveyRecord env id st)).
Proof.
  intros Hwf. unfold deleteSurveyRecord, withObjectStore.
  destruct (db_opens env); [ | done ].
  destruct (requests_succeed env); [ | done ].
  by apply idb_delete_wf.
Qed.

(** Deleting a key that is not in the store changes no record. *)
Lemma deleteSurveyRecord_absent (env : Idb) (id : Z) (st : ObjectStore) :
  records st !! id = None ->
  records (fst (deleteSurveyRecord env id st)) = records st.
Proof.
  intros Hid. unfold deleteSurveyRecord, withObjectStore.
  destruct (db_opens env); [ | done ].
  destruct (requests_succeed env); [ | done ].
  cbn. by apply delete_id.
Qed.

(** ** Rescheduling a record *)

(** What [updateTimeToSend] does to a record that is present. *)
Lemma updateTimeToSend_present
    (env : Idb) (now id : Z) (st : ObjectStore) (p : PendingSurveyRecord) :
  db_opens env = true ->
  requests_succeed env = true ->
  records st !! id = Some p ->
  updateTimeToSend env now id st =
    (idb_put {| Stored.id := id;
                Stored.pending :=
                  {| surveyRecord := surveyRecord p;
                     timeToSend := now + calculateSendingDelay (tries p + 1);
                     tries := tries p + 1 |} |} st,
     Fulfilled tt).
Proof.
  intros Hopen Hreq Hp. unfold updateTimeToSend, withObjectStore, idb_get.
  by rewrite Hopen, Hreq, Hp.
Qed.

(** A missing record is never written, whatever the storage does. *)
Lemma updateTimeToSend_absent_store
    (env : Idb) (now id : Z) (st : ObjectStore) :
  records st !! id = None ->
  fst (updateTimeToSend env now id st) = st.
Proof.
  intros Hp. unfold updateTimeToSend, withObjectStore, idb_get.
  destruct (db_opens env); [ | done ].
  destruct (requests_succeed env); [ | done ].
  by rewrite Hp.
Qed.

(** The store changes at most at [id]. *)
Lemma updateTimeToSend_other
    (env : Idb) (now id k : Z) (st : ObjectStore) :
  k <> id ->
  records (fst (updateTimeToSend env now id st)) !! k = records st !! k.
Proof.
  intros Hk. unfold updateTimeToSend, withObjectStore, idb_get.
  destruct (db_opens env); [ | done ].
  destruct (requests_succeed env); [ | done ].
  destruct (records st !! id) as [p|]; [ | done ].
  cbn. by rewrite lookup_insert_ne.
Qed.

Lemma updateTimeToSend_wf (env : Idb) (now id : Z) (st : ObjectStore) :
  store_wf st -> store_wf (fst (updateTimeToSend env now id st)).
Proof.
  intros Hwf. unfold updateTimeToSend, withObjectStore, idb_get.
  destruct (db_opens env); [ | done ].
  destruct (requests_succeed env); [ | done ].
  destruct (records st !! id) as [p|] eqn:Hp; [ | done ].
  cbn [fmap option_fmap option_map fst]. apply idb_put_wf; [ done | ].
  cbn. destruct Hwf as [_ Hwf]. apply Hwf in Hp. lia.
Qed.

(** ** The schedule of the stored records *)

Lemma emptyStore_scheduled (now : Z) : scheduled_by now emptyStore.
Proof. intros k p Hp. cbn in Hp. by rewrite lookup_empty in Hp. Qed.

Lemma scheduled_by_later (now later : Z) (st : ObjectStore) :
  now <= later -> scheduled_by now st -> scheduled_by later st.
Proof.
  intros Hle Hsched k p Hp. apply Hsched in Hp as [Htries Htime]. lia.
Qed.

Lemma saveSurveyRecord_scheduled
    (env : Idb) (now : Z) (record : SurveyRecord) (given : option Z)
    (st : ObjectStore) :
  0 <= default 0 given ->
  scheduled_by now st ->
  scheduled_by now (fst (saveSurveyRecord env now record given st)).
Proof.
  intros Htries Hsched. unfold saveSurveyRecord, withObjectStore.
  destruct (db_opens env); [ | done ].
  destruct (requests_succeed env); [ | done ].
  unfold idb_add. destruct (records st !! keyGenerator st); [ done | ].
  intros k p. cbn [fst records]. rewrite lookup_insert. case_decide as Hk.
  - intros [= <-]. cbn [tries timeToSend]. rewrite or_zero_default. lia.
  - apply Hsched.
Qed.

Lemma updateTimeToSend_scheduled (env : Idb) (now id : Z) (st : ObjectStore) :
  scheduled_by now st ->
  scheduled_by now (fst (updateTimeToSend env now id st)).
Proof.
  intros Hsched. unfold updateTimeToSend, withObjectStore, idb_get.
  destruct (db_opens env); [ | done ].
  destruct (requests_succeed env); [ | done ].
  destruct (records st !! id) as [q|] eqn:Hq; [ | done ].
  intros k p. cbn [fst records idb_put fmap option_fmap option_map Stored.id
                   Stored.pending].
  rewrite lookup_insert. case_decide as Hk.
  - intros [= <-]. cbn [tries timeToSend surveyRecord].
    apply Hsched in Hq as [Htries _]. lia.
  - apply Hsched.
Qed.

Lemma deleteSurveyRecord_scheduled (env : Idb) (now id : Z) (st : ObjectStore) :
  scheduled_by now st ->
  scheduled_by now (fst (deleteSurveyRecord env id st)).
Proof.
  intros Hsched. unfold deleteSurveyRecord, withObjectStore.
  destruct (db_opens env); [ | done ].
  destruct (requests_succeed env); [ | done ].
  intros k p Hp. cbn [fst records idb_delete] in Hp.
  apply lookup_delete_Some in Hp as [_ Hp]. by apply Hsched in Hp.
Qed.

(** On a store whose records were scheduled at or before [now], a
    reschedule never lowers [tries] or [timeToSend], whatever the storage
    does. *)
Lemma updateTimeToSend_never_earlier
    (env : Idb) (now id k : Z) (st : ObjectStore) (p : PendingSurveyRecord) :
  scheduled_by now st ->
  records st !! k = Some p ->
  exists p' : PendingSurveyRecord,
    records (fst (updateTimeToSend env now id st)) !! k = Some p' /\
    tries p <= tries p' /\ timeToSend p <= timeToSend p'.
Proof.
  intros Hsched Hp.
  destruct (Z.eq_dec k id) as [-> | Hne].
  - unfold updateTimeToSend, withObjectStore, idb_get.
    destruct (db_opens env); [ | exists p; by split; [ | lia ] ].
    destruct (requests_succeed env); [ | exists p; by split; [ | lia ] ].
    rewrite Hp.
    cbn [fst records idb_put fmap option_fmap option_map Stored.id
         Stored.pending].
    rewrite lookup_insert_eq. eexists. split; [ done | ].
    cbn [tries timeToSend]. apply Hsched in Hp as [Htries Htime].
    assert (calculateSendingDelay (tries p) < calculateSendingDelay (tries p + 1))
      by (apply calculateSendingDelay_lt; lia).
    lia.
  - exists p. rewrite updateTimeToSend_other by done. by split; [ | lia ].
Qed.


(** C10. [updateTimeToSend] on a record that is present keeps it under its
    key with its survey record, leaves every other record as it was, adds
    and removes no key and does not move the key generator. *)
Theorem updateTimeToSend_frame
    (env : Idb) (now id : Z) (st : ObjectStore) (p : PendingSurveyRecord) :
  store_wf st ->
  records st !! id = Some p ->
  let st' := fst (updateTimeToSend env now id st) in
  (exists p' : PendingSurveyRecord,
      records st' !! id = Some p' /\
      Stored.id <$> idb_get id st' = Some id /\
      surveyRecord p' = surveyRecord p) /\
  (forall k : Z, k <> id -> records st' !! k = records st !! k) /\
  dom (records st') = dom (records st) /\
  keyGenerator st' = keyGenerator st.
Proof.
  intros [_ Hwf] Hp st'.
  assert (Hlt : id < keyGenerator st) by (apply Hwf in Hp; lia).
  split; [ | split; [ | split ] ].
  - subst st'. unfold updateTimeToSend, withObjectStore, idb_get.
    destruct (db_opens env); [ | cbn; rewrite Hp; eauto ].
    destruct (requests_succeed env); [ | cbn; rewrite Hp; eauto ].
    rewrite Hp. cbn. rewrite lookup_insert_eq. eauto.
  - intros k Hk. by apply updateTimeToSend_other.
  - subst st'. unfold updateTimeToSend, withObjectStore, idb_get.
    destruct (db_opens env); [ | done ].
    destruct (requests_succeed env); [ | done ].
    rewrite Hp. cbn. rewrite dom_insert_L.
    apply subseteq_union_1_L, singleton_subseteq_l, elem_of_dom. eauto.
  - subst st'. unfold updateTimeToSend, withObjectStore, idb_get.
    destruct (db_opens env); [ | done ].
    destruct (requests_succeed env); [ | done ].
    rewrite Hp. cbn.
    destruct (keyGenerator st <=? id) eqn:Hg; [ lia | done ].
Qed.

(** A reschedule of a key that is not in the store writes nothing; with
    the storage available its promise is never settled, because reading
    the missing record raises a TypeError in the success handler of the
    get request. *)
Lemma updateTimeToSend_missing
    (env : Idb) (now id : Z) (st : ObjectStore) :
  records st !! id = None ->
  fst (updateTimeToSend env now id st) = st /\
  (db_opens env = true -> requests_succeed env = true ->
   snd (updateTimeToSend env now id st) =
     Unsettled (Some (TypeError "record is undefined"))).
Proof.
  intros Hp. split; [ by apply updateTimeToSend_absent_store | ].
  intros Hopen Hreq. unfold updateTimeToSend, withObjectStore, idb_get.
  by rewrite Hopen, Hreq, Hp.
Qed.

Lemma sample_store_wf : store_wf sample_store.
Proof.
  split; [ done | ].
  intros k p. cbn. rewrite !lookup_insert, lookup_empty.
  repeat case_decide; intros; simplify_eq; lia.
Qed.

Lemma sample_store_scheduled : scheduled_by 1000 sample_store.
Proof.
  intros k p. cbn. rewrite !lookup_insert, lookup_empty.
  repeat case_decide; intros; simplify_eq; cbn; split; try lia;
    apply Z.leb_le; reflexivity.
Qed.


Lemma updateTimeToSend_frame_witness :
  store_wf sample_store /\
  records (fst (updateTimeToSend storage_available 1000 2 sample_store)) !! 3
    = Some (sample_pending 5000 2) /\
  keyGenerator (fst (updateTimeToSend storage_available 1000 2 sample_store))
    = 4.
Proof.
  split; [ apply sample_store_wf | ].
  destruct (updateTimeToSend_frame storage_available 1000 2 sample_store
              (sample_pending 500 1) sample_store_wf eq_refl)
    as (_ & Hother & _ & Hgen).
  split; [ rewrite Hother by lia; reflexivity | exact Hgen ].
Defined.

(** C8 (the code at a failing input). Key 9 is not in the store. The
    reschedule writes nothing, but it does not fail with a rejection
    either: [store.get] succeeds with [undefined], reading [record.tries]
    raises a TypeError in the success handler, and the promise is left
    neither rejected nor fulfilled. The other paths of the function
    settle: with the record present (key 3) the promise is fulfilled, and
    when the get request fails it is rejected. *)
Theorem updateTimeToSend_missing_id_hangs :
  records sample_store !! 9 = None /\
  fst (updateTimeToSend storage_available 1000 9 sample_store) = sample_store /\
  snd (updateTimeToSend storage_available 1000 9 sample_store)
    = Unsettled (Some (TypeError "record is undefined")) /\
  is_rejected (snd (updateTimeToSend storage_available 1000 9 sample_store))
    = false /\
  is_fulfilled (snd (updateTimeToSend storage_available 1000 9 sample_store))
    = false /\
  snd (updateTimeToSend storage_available 1000 3 sample_store)
    = Fulfilled tt /\
  snd (updateTimeToSend {| db_opens := true; requests_succeed := false |}
         1000 9 sample_store)
    = Rejected RequestFailed.
Proof.
  destruct (updateTimeToSend_missing storage_available 1000 9 sample_store
              eq_refl) as [Hstore Hpromise].
  specialize (Hpromise eq_refl eq_refl).
  split; [ reflexivity | ]. split; [ exact Hstore | ].
  split; [ exact Hpromise | ]. rewrite Hpromise.
  repeat split; reflexivity.
Qed.

(** ** Strings *)

Lemma append_nil (b : string) : (EmptyString +:+ b)%string = b.
Proof. reflexivity. Qed.

Lemma append_cons (c : ascii) (a b : string) :
  (String c a +:+ b)%string = String c (a +:+ b).
Proof. reflexivity. Qed.

Lemma length_append (a b : string) :
  String.length (a +:+ b) = (String.length a + String.length b)%nat.
Proof.
  induction a as [|c a IH]; [ done | ].
  rewrite append_cons. cbn [String.length]. by rewrite IH.
Qed.

Lemma substring_prefix (a b : string) :
  substring 0 (String.length a) (a +:+ b) = a.
Proof.
  induction a as [|c a IH].
  - rewrite append_nil. by destruct b.
  - rewrite append_cons. cbn [String.length substring]. by rewrite IH.
Qed.

Lemma substring_suffix (a b : string) :
  substring (String.length a) (String.length b) (a +:+ b) = b.
Proof.
  induction a as [|c a IH].
  - rewrite append_nil. cbn [String.length].
    induction b as [|d b IHb]; cbn [String.length substring];
      [ done | by rewrite IHb ].
  - rewrite append_cons. by cbn [String.length substring].
Qed.

(** A string is its last character appended to the rest. *)
Lemma substring_last (s : string) :
  s <> EmptyString ->
  s = (substring 0 (String.length s - 1) s
       +:+ substring (String.length s - 1) 1 s)%string.
Proof.
  induction s as [|c s IH]; [ done | ]. intros _.
  destruct s as [|d s].
  - done.
  - cbn [String.length]. replace (S (S (String.length s)) - 1)%nat
      with (S (String.length (String d s) - 1)) by (cbn; lia).
    cbn [substring]. rewrite append_cons. f_equal. by apply IH.
Qed.

(** [s.slice(-1)] is the last character, if there is one. *)
Lemma js_slice_last (s : string) :
  js_slice s (-1) None = substring (String.length s - 1) 1 s.
Proof.
  unfold js_slice. set (n := String.length s).
  destruct (Z.ltb_spec (Z.of_nat n) 0) as [Hneg|_]; [ lia | ].
  change (-1 <? 0) with true. cbv iota. rewrite Z.min_id.
  destruct (Nat.eq_dec n 0%nat) as [Hn|Hn].
  - subst n. destruct s; [ done | discriminate Hn ].
  - replace (Z.to_nat (Z.max (Z.of_nat n + -1) 0)) with (n - 1)%nat by lia.
    by replace (Z.to_nat (Z.max (Z.of_nat n - Z.max (Z.of_nat n + -1) 0) 0))
      with 1%nat by lia.
Qed.

(** [s.slice(0, -1)] is the string without its last character. *)
Lemma js_slice_init (s : string) :
  js_slice s 0 (Some (-1)) = substring 0 (String.length s - 1) s.
Proof.
  unfold js_slice. set (n := String.length s).
  change (0 <? 0) with false. change (-1 <? 0) with true. cbv iota.
  replace (Z.to_nat (Z.min 0 (Z.of_nat n))) with 0%nat by lia.
  by replace (Z.to_nat (Z.max (Z.max (Z.of_nat n + -1) 0
                               - Z.min 0 (Z.of_nat n)) 0))
    with (n - 1)%nat by lia.
Qed.

Lemma js_slice_last_Z (prefix : string) :
  js_slice (prefix +:+ "Z") (-1) None = "Z"%string.
Proof.
  rewrite js_slice_last, length_append. cbn [String.length].
  replace (String.length prefix + 1 - 1)%nat with (String.length prefix) by lia.
  apply (substring_suffix prefix "Z").
Qed.

Lemma js_slice_init_Z (prefix : string) :
  js_slice (prefix +:+ "Z") 0 (Some (-1)) = prefix.
Proof.
  rewrite js_slice_init, length_append. cbn [String.length].
  replace (String.length prefix + 1 - 1)%nat with (String.length prefix) by lia.
  apply substring_prefix.
Qed.

(** A string whose [slice(-1)] is "Z" ends in "Z". *)
Lemma js_slice_last_Z_inv (s : string) :
  js_slice s (-1) None = "Z"%string ->
  exists prefix : string, s = (prefix +:+ "Z")%string.
Proof.
  rewrite js_slice_last. intros Hlast.
  destruct s as [|c s]; [ discriminate Hlast | ].
  exists (substring 0 (String.length (String c s) - 1) (String c s)).
  rewrite <- Hlast. by apply substring_last.
Qed.

(** ** The submission client: properties *)

(** The copying loop reproduces the responses, in order. *)
Lemma push_responses_app (responses done_ rest : list Response) (acc : list json) :
  responses = done_ ++ rest ->
  push_responses (length rest) (length done_) responses acc
    = acc ++ (response_json <$> rest).
Proof.
  revert done_ acc. induction rest as [|r rest IH]; intros done_ acc ->.
  - cbn. by rewrite app_nil_r.
  - cbn [push_responses length].
    assert (Hlt : (length done_ <? length (done_ ++ r :: rest))%nat = true).
    { apply Nat.ltb_lt. rewrite length_app. cbn. lia. }
    rewrite Hlt, lookup_app_r, Nat.sub_diag by lia.
    cbn [lookup list_lookup].
    specialize (IH (done_ ++ [r]) (acc ++ [response_json r])).
    rewrite length_app in IH. cbn [length] in IH.
    replace (S (length done_)) with (length done_ + 1)%nat by lia.
    rewrite IH by (by rewrite <- app_assoc).
    rewrite fmap_cons. by rewrite <- app_assoc.
Qed.

Lemma push_responses_all (responses : list Response) :
  push_responses (length responses) 0 responses [] = response_json <$> responses.
Proof. by apply (push_responses_app responses [] responses []). Qed.

Section ClientProperties.

Variable toISOString : Z -> string.

(** The [date_taken] field: the ISO string, without a final "Z". *)
Lemma surveyRequest_date_taken (r : SurveyRecord) :
  (forall prefix : string,
      toISOString (dateTaken r) = (prefix +:+ "Z")%string ->
      property "date_taken" (body (surveyRequest toISOString r))
        = Some (JStr prefix)) /\
  ((forall prefix : string,
       toISOString (dateTaken r) <> (prefix +:+ "Z")%string) ->
   property "date_taken" (body (surveyRequest toISOString r))
     = Some (JStr (toISOString (dateTaken r)))).
Proof.
  unfold surveyRequest. cbn [body property assoc String.eqb Ascii.eqb Bool.eqb].
  split.
  - intros prefix ->. by rewrite js_slice_last_Z, js_slice_init_Z.
  - intros Hno.
    destruct (String.eqb_spec (js_slice (toISOString (dateTaken r)) (-1) None) "Z")
      as [Hlast|_]; [ | done ].
    apply js_slice_last_Z_inv in Hlast as [prefix Hprefix].
    by destruct (Hno prefix).
Qed.

(** C7. For every survey record the client sends a POST to the
    submit-survey endpoint whose body has [date_taken] equal to the ISO
    string of [dateTaken] with a final "Z" removed when there is one,
    [participant_id] equal to [participantId], [survey_type] equal to
    [type], and [responses] equal to the record's responses as
    [{question, answer}] objects in their order. *)
Theorem sendSurveyRecord_request (r : SurveyRecord) (ev : XhrEvent) :
  exists request : XhrRequest,
    fst (sendSurveyRecord toISOString (OfSurveyRecord r) ev) = Some request /\
    method request = "POST"%string /\
    url request =
      "https://chrome-experience-sampling.appspot.com/_ah/api/cesp/v1/submitsurvey"%string /\
    (forall prefix : string,
        toISOString (dateTaken r) = (prefix +:+ "Z")%string ->
        property "date_taken" (body request) = Some (JStr prefix)) /\
    ((forall prefix : string,
         toISOString (dateTaken r) <> (prefix +:+ "Z")%string) ->
     property "date_taken" (body request)
       = Some (JStr (toISOString (dateTaken r)))) /\
    property "participant_id" (body request) = Some (participantId r) /\
    property "survey_type" (body request) = Some (JStr (type r)) /\
    property "responses" (body request) =
      Some (JArr ((fun x => JObj [("question"%string, JStr (question x));
                                  ("answer"%string, JStr (answer x))])
                    <$> responses r)).
Proof.
  exists (surveyRequest toISOString r).
  destruct (surveyRequest_date_taken r) as [Hstrip Hkeep].
  split; [ done | ]. split; [ done | ]. split; [ done | ].
  split; [ exact Hstrip | ]. split; [ exact Hkeep | ].
  unfold surveyRequest.
  cbn [body property assoc String.eqb Ascii.eqb Bool.eqb].
  by rewrite push_responses_all.
Qed.

(** C4. Once the request has completed, the promise of [sendSurveyRecord]
    is fulfilled exactly when the response status is 204; any other
    status, a network error and a timeout all reject it. *)
Theorem sendSurveyRecord_resolves_iff_204 (r : SurveyRecord) (ev : XhrEvent) :
  completed ev ->
  let promise := snd (sendSurveyRecord toISOString (OfSurveyRecord r) ev) in
  (is_fulfilled promise = true <->
   exists response : string, ev = XhrLoad 4 204 response) /\
  (forall status response,
      ev = XhrLoad 4 status response -> status <> 204 ->
      promise = Rejected (HttpStatus status)) /\
  (forall status, ev = XhrError status -> promise = Rejected (HttpStatus status)) /\
  (forall status, ev = XhrTimeout status -> promise = Rejected (HttpStatus status)) /\
  (is_fulfilled promise = false -> is_rejected promise = true).
Proof.
  intros Hdone promise. subst promise. cbn [sendSurveyRecord snd].
  destruct ev as [readyState status response | status | status];
    cbn in Hdone; cbn [xhr_settle].
  - subst readyState. change (4 =? 4) with true. cbv iota.
    destruct (Z.eqb_spec status 204) as [-> | Hne]; cbn.
    + repeat split; try done; eauto.
      by intros status response' [= <- _] Hne.
    + repeat split; try done.
      * intros [response' [= ? ?]]. done.
      * intros status' response' [= <- _] _.
        destruct (Z.eqb_spec status 204); done.
  - repeat split; try done.
    + intros [response [=]].
    + by intros status' [= <-].
  - repeat split; try done.
    + intros [response [=]].
    + by intros status' [= <-].
Qed.

End ClientProperties.

Lemma sendSurveyRecord_request_witness :
  toISOString_utc (dateTaken sample_record) = "2001-09-09T01:46:40.000Z"%string /\
  exists request : XhrRequest,
    fst (sendSurveyRecord toISOString_utc (OfSurveyRecord sample_record)
           (XhrLoad 4 500 EmptyString)) = Some request /\
    property "date_taken" (body request)
      = Some (JStr "2001-09-09T01:46:40.000").
Proof.
  split; [ reflexivity | ].
  destruct (sendSurveyRecord_request toISOString_utc sample_record
              (XhrLoad 4 500 EmptyString))
    as (request & Hsent & _ & _ & Hstrip & _).
  exists request. split; [ exact Hsent | ].
  apply Hstrip. reflexivity.
Defined.

Lemma sendSurveyRecord_resolves_iff_204_witness :
  completed (XhrLoad 4 200 "ok") /\
  snd (sendSurveyRecord toISOString_utc (OfSurveyRecord sample_record)
         (XhrLoad 4 200 "ok")) = Rejected (HttpStatus 200).
Proof.
  split; [ reflexivity | ].
  destruct (sendSurveyRecord_resolves_iff_204 toISOString_utc sample_record
              (XhrLoad 4 200 "ok") eq_refl)
    as (_ & Hother & _).
  apply (Hother 200 "ok"%string); [ reflexivity | lia ].
Defined.

(** ** The index and the cursor *)

Lemma index_le_spec (a b : Stored.t) :
  index_le a b <->
  index_key a < index_key b \/
  (index_key a = index_key b /\ Stored.id a <= Stored.id b).
Proof.
  unfold index_le, index_leb, index_key.
  rewrite orb_true_iff, andb_true_iff, Z.ltb_lt, Z.eqb_eq, Z.leb_le. tauto.
Qed.

Lemma index_le_total (a b : Stored.t) : index_le a b \/ index_le b a.
Proof. rewrite !index_le_spec. lia. Qed.

Lemma index_le_trans (a b c : Stored.t) :
  index_le a b -> index_le b c -> index_le a c.
Proof. rewrite !index_le_spec. lia. Qed.

Lemma index_le_key (a b : Stored.t) : index_le a b -> index_key a <= index_key b.
Proof. rewrite index_le_spec. lia. Qed.

Lemma index_insert_perm (v : Stored.t) (index : list Stored.t) :
  index_insert v index ≡ₚ v :: index.
Proof.
  induction index as [|w rest IH]; cbn; [ done | ].
  destruct (index_leb v w); [ done | ].
  rewrite IH. apply Permutation_swap.
Qed.

Lemma index_insert_sorted (v : Stored.t) (index : list Stored.t) :
  StronglySorted index_le index ->
  StronglySorted index_le (index_insert v index).
Proof.
  induction 1 as [|w rest Hsorted IH Hall]; cbn.
  - by repeat constructor.
  - destruct (index_leb v w) eqn:Hvw.
    + constructor; [ by constructor | ].
      constructor; [ exact Hvw | ].
      eapply Forall_impl; [ exact Hall | ].
      intros x Hwx. by apply index_le_trans with w.
    + constructor; [ exact IH | ].
      rewrite index_insert_perm. constructor; [ | exact Hall ].
      destruct (index_le_total v w) as [Hle|Hle]; [ | exact Hle ].
      unfold index_le in Hle. congruence.
Qed.

Lemma index_timeToSend_perm (st : ObjectStore) :
  index_timeToSend st ≡ₚ stored_values st.
Proof.
  unfold index_timeToSend.
  induction (stored_values st) as [|v l IH]; cbn; [ done | ].
  by rewrite index_insert_perm, IH.
Qed.

Lemma index_timeToSend_sorted (st : ObjectStore) :
  StronglySorted index_le (index_timeToSend st).
Proof.
  unfold index_timeToSend.
  induction (stored_values st) as [|v l IH]; cbn; [ constructor | ].
  by apply index_insert_sorted.
Qed.

(** The stored values are the records of the store under their keys. *)
Lemma elem_of_stored_values (st : ObjectStore) (v : Stored.t) :
  v ∈ stored_values st <->
  records st !! Stored.id v = Some (Stored.pending v).
Proof.
  unfold stored_values. rewrite list_elem_of_fmap. split.
  - intros [[k p] [-> Hin]]. by apply elem_of_map_to_list in Hin.
  - intros Hv. exists (Stored.id v, Stored.pending v). split.
    + by destruct v.
    + by apply elem_of_map_to_list.
Qed.

Lemma stored_values_NoDup (st : ObjectStore) :
  NoDup (Stored.id <$> stored_values st).
Proof.
  unfold stored_values. rewrite <- list_fmap_compose.
  apply (NoDup_fst_map_to_list (records st)).
Qed.

Lemma filter_fmap_NoDup {A B : Type} (g : A -> B) (f : A -> bool) (l : list A) :
  NoDup (g <$> l) -> NoDup (g <$> List.filter f l).
Proof.
  induction l as [|x l IH]; cbn; [ done | ].
  rewrite NoDup_cons. intros [Hx Hl].
  destruct (f x); cbn; [ | by apply IH ].
  apply NoDup_cons. split; [ | by apply IH ].
  intros Hin. apply Hx.
  apply list_elem_of_fmap in Hin as (y & -> & Hy).
  apply list_elem_of_fmap. exists y. split; [ done | ].
  apply list_elem_of_In. apply list_elem_of_In, filter_In in Hy. tauto.
Qed.

Lemma filter_StronglySorted {A : Type} (R : A -> A -> Prop) (f : A -> bool)
    (l : list A) :
  StronglySorted R l -> StronglySorted R (List.filter f l).
Proof.
  induction 1 as [|x l Hsorted IH Hall]; cbn; [ constructor | ].
  destruct (f x); [ | exact IH ].
  constructor; [ exact IH | ].
  apply Forall_forall. intros y Hy.
  apply list_elem_of_In, filter_In in Hy as [Hy _].
  rewrite Forall_forall in Hall. by apply Hall, list_elem_of_In.
Qed.

(** In a strongly sorted list an earlier element is related to a later
    one. *)
Lemma StronglySorted_lookup_lt {A : Type} (R : A -> A -> Prop) (l : list A)
    (i j : nat) (a b : A) :
  StronglySorted R l -> (i < j)%nat ->
  l !! i = Some a -> l !! j = Some b -> R a b.
Proof.
  intros Hsorted. revert i j.
  induction Hsorted as [|x l Hsorted IH Hall]; intros i j Hij Hi Hj.
  - done.
  - destruct j as [|j]; [ lia | ]. cbn in Hj.
    destruct i as [|i]; cbn in Hi.
    + injection Hi as <-. rewrite Forall_forall in Hall.
      apply Hall. by eapply list_elem_of_lookup_2.
    + apply (IH i j); [ lia | done | done ].
Qed.

(** The cursor over [upperBound now] visits the index records with a key
    of at most [now]. *)
Lemma openCursor_upperBound (now : Z) (index : list Stored.t) (v : Stored.t) :
  v ∈ openCursor (upperBound now) index <-> v ∈ index /\ index_key v <= now.
Proof.
  unfold openCursor. rewrite !list_elem_of_In, filter_In.
  unfold includes, upperBound, index_key. cbn. by rewrite Z.leb_le.
Qed.

Lemma cursor_onsuccess_app (cursor : list Stored.t) (acc : list Entry.t) :
  cursor_onsuccess cursor acc = acc ++ (queue_entry <$> cursor).
Proof.
  revert acc. induction cursor as [|v rest IH]; intros acc; cbn.
  - by rewrite app_nil_r.
  - by rewrite IH, <- app_assoc.
Qed.

(** ** The queue processor: properties *)

Section ProcessorProperties.

Variable toISOString : Z -> string.

(** With the database open, [surveysToSubmit] holds one entry per record
    the cursor visits. *)
Lemma processQueue_selected
    (G : Globals) (env : Idb) (now : Z) (clock : nat -> Z)
    (net : Entry.t -> XhrEvent) (st : ObjectStore) :
  db_opens env = true ->
  run_selected (processQueue toISOString G env now clock net st) =
    queue_entry <$> openCursor (upperBound now) (index_timeToSend st).
Proof.
  intros Hopen. unfold processQueue. rewrite Hopen.
  destruct (reconcile_all G env clock 0 _ st) as [st' outcomes].
  cbn [run_selected]. by rewrite cursor_onsuccess_app.
Qed.

(** C6. With the database open, the entries the queue processor selects
    are exactly the records of the store with [timeToSend <= now], each
    once, in ascending order of [timeToSend]; none has [timeToSend > now]. *)
Theorem processQueue_selects_due
    (G : Globals) (env : Idb) (now : Z) (clock : nat -> Z)
    (net : Entry.t -> XhrEvent) (st : ObjectStore) :
  db_opens env = true ->
  let selected := run_selected (processQueue toISOString G env now clock net st) in
  (forall e : Entry.t,
      e ∈ selected <->
      exists p : PendingSurveyRecord,
        records st !! Entry.id e = Some p /\
        timeToSend p <= now /\
        Entry.surveyRecord e = surveyRecord p) /\
  NoDup (Entry.id <$> selected) /\
  (forall (i j : nat) (e1 e2 : Entry.t) (p1 p2 : PendingSurveyRecord),
      (i < j)%nat ->
      selected !! i = Some e1 -> selected !! j = Some e2 ->
      records st !! Entry.id e1 = Some p1 ->
      records st !! Entry.id e2 = Some p2 ->
      timeToSend p1 <= timeToSend p2).
Proof.
  intros Hopen selected. subst selected.
  rewrite processQueue_selected by done.
  set (visited := openCursor (upperBound now) (index_timeToSend st)).
  assert (Hvisited : forall v, v ∈ visited <->
            records st !! Stored.id v = Some (Stored.pending v)
            /\ index_key v <= now).
  { intros v. subst visited.
    by rewrite openCursor_upperBound, index_timeToSend_perm,
      elem_of_stored_values. }
  split; [ | split ].
  - intros e. rewrite list_elem_of_fmap. split.
    + intros (v & -> & Hv). apply Hvisited in Hv as [Hrec Hdue].
      exists (Stored.pending v). by repeat split.
    + intros (p & Hrec & Hdue & Hsurvey).
      exists {| Stored.id := Entry.id e; Stored.pending := p |}. split.
      * destruct e as [k r]. cbn in *. by subst r.
      * by apply Hvisited.
  - rewrite <- list_fmap_compose.
    change (Entry.id ∘ queue_entry) with Stored.id.
    subst visited. unfold openCursor. apply filter_fmap_NoDup.
    rewrite index_timeToSend_perm. apply stored_values_NoDup.
  - intros i j e1 e2 p1 p2 Hij H1 H2 Hp1 Hp2.
    rewrite list_lookup_fmap in H1, H2.
    apply fmap_Some in H1 as (v1 & Hv1 & ->).
    apply fmap_Some in H2 as (v2 & Hv2 & ->).
    assert (Hle : index_le v1 v2).
    { apply (StronglySorted_lookup_lt index_le visited i j); try done.
      subst visited. apply filter_StronglySorted, index_timeToSend_sorted. }
    apply index_le_key in Hle.
    apply list_elem_of_lookup_2, Hvisited in Hv1 as [Hr1 _].
    apply list_elem_of_lookup_2, Hvisited in Hv2 as [Hr2 _].
    cbn in Hp1, Hp2. rewrite Hr1 in Hp1. rewrite Hr2 in Hp2.
    injection Hp1 as <-. injection Hp2 as <-. exact Hle.
Qed.

(** No request leaves [processQueue]: [sendSurveyRecord] is applied to the
    entries, which have no [dateTaken]. *)
Lemma processQueue_sends_nothing
    (G : Globals) (env : Idb) (now : Z) (clock : nat -> Z)
    (net : Entry.t -> XhrEvent) (st : ObjectStore) :
  run_requests (processQueue toISOString G env now clock net st) = [].
Proof.
  unfold processQueue. destruct (db_opens env); [ | done ].
  destruct (reconcile_all G env clock 0 _ st) as [st' outcomes].
  cbn [run_requests].
  induction (cursor_onsuccess _ _) as [|e l IH]; [ done | ].
  rewrite fmap_cons. cbn. exact IH.
Qed.

(** With [id] unbound no reaction reaches the store. *)
Lemma reconcile_all_unbound
    (G : Globals) (env : Idb) (clock : nat -> Z) (i : nat)
    (submissionPromises : list (Settlement string)) (st : ObjectStore) :
  global_id G = None ->
  fst (reconcile_all G env clock i submissionPromises st) = st.
Proof.
  intros Hid. revert i st.
  induction submissionPromises as [|p rest IH]; intros i st; [ done | ].
  cbn [reconcile_all].
  assert (Hstep : fst (reconcile G env (clock i) p st) = st).
  { unfold reconcile. rewrite Hid. by destruct p. }
  destruct (reconcile G env (clock i) p st) as [st1 outcome].
  cbn in Hstep. subst st1.
  specialize (IH (S i) st).
  destruct (reconcile_all G env clock (S i) rest st) as [st2 outcomes].
  exact IH.
Qed.

(** As the scripts leave the global object, an invocation of the queue
    processor changes nothing in the store. *)
Lemma processQueue_store_unchanged
    (env : Idb) (now : Z) (clock : nat -> Z)
    (net : Entry.t -> XhrEvent) (st : ObjectStore) :
  run_store (processQueue toISOString extension_globals env now clock net st)
    = st.
Proof.
  unfold processQueue. destruct (db_opens env); [ | done ].
  pose proof (reconcile_all_unbound extension_globals env clock 0
    (snd <$> ((fun e => sendSurveyRecord toISOString (OfEntry e) (net e))
              <$> cursor_onsuccess
                    (openCursor (upperBound now) (index_timeToSend st)) []))
    st eq_refl) as Hfst.
  destruct (reconcile_all extension_globals env clock 0 _ st)
    as [st' outcomes].
  exact Hfst.
Qed.

End ProcessorProperties.

Lemma processQueue_selects_due_witness :
  db_opens storage_available = true /\
  run_selected (processQueue toISOString_utc extension_globals
                  storage_available 1000 (fun _ => 1000) always_204
                  sample_store)
    = [ {| Entry.id := 2; Entry.surveyRecord := sample_record |};
        {| Entry.id := 1; Entry.surveyRecord := sample_record |} ] /\
  NoDup (Entry.id <$>
           run_selected (processQueue toISOString_utc extension_globals
                           storage_available 1000 (fun _ => 1000) always_204
                           sample_store)).
Proof.
  split; [ reflexivity | ]. split; [ by vm_compute | ].
  destruct (processQueue_selects_due toISOString_utc extension_globals
              storage_available 1000 (fun _ => 1000) always_204 sample_store
              eq_refl) as (_ & Hnodup & _).
  exact Hnodup.
Defined.

(** C1 (the code at a failing input). The store holds two due records and
    the server would answer 204 to every request. The queue processor
    selects both, sends no request, runs neither [deleteSurveyRecord] nor
    [updateTimeToSend] (both reactions stop at the unbound [id]) and
    leaves both records in the store as they were. *)
Theorem processQueue_keeps_delivered_records :
  let run := processQueue toISOString_utc extension_globals storage_available
               1000 (fun _ => 1000) always_204 sample_store in
  Entry.id <$> run_selected run = [2; 1] /\
  run_requests run = [] /\
  run_outcomes run = [ Rejected (Thrown (ReferenceError "id"));
                       Rejected (Thrown (ReferenceError "id")) ] /\
  run_store run = sample_store /\
  records (run_store run) !! 1 = Some (sample_pending 900 0) /\
  records (run_store run) !! 2 = Some (sample_pending 500 1) /\
  size (records (run_store run)) = 3%nat.
Proof.
  intros run. subst run.
  rewrite processQueue_store_unchanged.
  repeat split; by vm_compute.
Qed.

(** ** The wake-up trigger: properties *)

(** Neither free identifier is declared by the scripts. *)
Lemma free_identifiers_undeclared :
  declared "id" = false /\ declared "processQueue" = false.
Proof. split; reflexivity. Qed.

(** An alarm with another name is ignored, whatever [processQueue] is
    bound to. *)
Lemma processQueueAlarm_other_name
    (G : Globals) (alarm : Alarm.t) (st : ObjectStore) :
  Alarm.name alarm <> Settings.QUEUE_ALARM_NAME ->
  processQueueAlarm G alarm st = (st, Returned).
Proof.
  intros Hname. unfold processQueueAlarm.
  by destruct (String.eqb_spec (Alarm.name alarm) Settings.QUEUE_ALARM_NAME).
Qed.

(** On install, [setupState] creates the queue alarm (first after one
    minute, then every 20); the other alarms it puts on the channel are
    ignored by [processQueueAlarm]. *)
Lemma setupState_alarms (midnight : Z) (G : Globals) (st : ObjectStore) :
  (Settings.QUEUE_ALARM_NAME,
    {| when := None; delayInMinutes := Some 1; every := Some 20 |})
    ∈ setupState "install" midnight /\
  forall (name : string) (info : AlarmCreateInfo) (scheduled : Z),
    (name, info) ∈ setupState "install" midnight ->
    name <> Settings.QUEUE_ALARM_NAME ->
    processQueueAlarm G
      {| Alarm.name := name; Alarm.scheduledTime := scheduled;
         Alarm.periodInMinutes := every info |} st = (st, Returned).
Proof.
  split.
  - cbn. rewrite !elem_of_cons. tauto.
  - intros name info scheduled _ Hname. by apply processQueueAlarm_other_name.
Qed.

(** C9 (the code at a failing input). For the queue's own alarm the
    handler evaluates the identifier [processQueue], which nothing
    declares (the processor is [SurveySubmission.processQueue]): the call
    raises a ReferenceError, the queue processor does not run and the
    store is as before. *)
Theorem processQueueAlarm_matching_name_raises (st : ObjectStore) :
  processQueueAlarm extension_globals
    {| Alarm.name := "surveySubmissionAlarm";
       Alarm.scheduledTime := 60000;
       Alarm.periodInMinutes := Some 20 |} st
  = (st, Threw (ReferenceError "processQueue")).
Proof. reflexivity. Qed.

(** * Further properties of the submission code *)

(** ** Failures of the storage *)

(** X1. When the database cannot be opened, none of the three writers touches
    the store and none of their promises is ever settled: the error
    handler of [withObjectStore] returns before its [reject(event)]. *)
Theorem unopened_database_never_settles
    (env : Idb) (now id : Z) (record : SurveyRecord) (given : option Z)
    (st : ObjectStore) :
  db_opens env = false ->
  saveSurveyRecord env now record given st = (st, Unsettled None) /\
  deleteSurveyRecord env id st = (st, Unsettled None) /\
  updateTimeToSend env now id st = (st, Unsettled None).
Proof.
  intros Hopen.
  unfold saveSurveyRecord, deleteSurveyRecord, updateTimeToSend, withObjectStore.
  by rewrite Hopen.
Qed.

Lemma unopened_database_never_settles_witness :
  db_opens {| db_opens := false; requests_succeed := true |} = false /\
  saveSurveyRecord {| db_opens := false; requests_succeed := true |} 1000
    sample_record None sample_store = (sample_store, Unsettled None).
Proof.
  split; [ reflexivity | ].
  exact (proj1 (unopened_database_never_settles
                  {| db_opens := false; requests_succeed := true |}
                  1000 1 sample_record None sample_store eq_refl)).
Defined.

(** X2. When the database opens but its requests fail, each writer rejects
    its promise and leaves the store as it was: [saveSurveyRecord] with
    the error "Failed to save record", the other two with the request's
    error event. *)
Theorem failed_request_rejects
    (env : Idb) (now id : Z) (record : SurveyRecord) (given : option Z)
    (st : ObjectStore) :
  db_opens env = true ->
  requests_succeed env = false ->
  saveSurveyRecord env now record given st
    = (st, Rejected (ErrorObject "Failed to save record")) /\
  deleteSurveyRecord env id st = (st, Rejected RequestFailed) /\
  updateTimeToSend env now id st = (st, Rejected RequestFailed).
Proof.
  intros Hopen Hreq.
  unfold saveSurveyRecord, deleteSurveyRecord, updateTimeToSend, withObjectStore.
  by rewrite Hopen, Hreq.
Qed.

Lemma failed_request_rejects_witness :
  db_opens {| db_opens := true; requests_succeed := false |} = true /\
  requests_succeed {| db_opens := true; requests_succeed := false |} = false /\
  updateTimeToSend {| db_opens := true; requests_succeed := false |} 1000 2
    sample_store = (sample_store, Rejected RequestFailed).
Proof.
  split; [ reflexivity | ]. split; [ reflexivity | ].
  exact (proj2 (proj2 (failed_request_rejects
                  {| db_opens := true; requests_succeed := false |}
                  1000 2 sample_record None sample_store eq_refl eq_refl))).
Defined.

(** ** Deleting *)

(** X3. With the storage available, [deleteSurveyRecord] fulfils its promise
    whether or not the key is present; afterwards the key is absent, every
    other record and the key generator are as before, and deleting the
    same key again (under any storage behaviour) changes nothing. *)
Theorem deleteSurveyRecord_removes
    (env env' : Idb) (id : Z) (st : ObjectStore) :
  db_opens env = true ->
  requests_succeed env = true ->
  let st' := fst (deleteSurveyRecord env id st) in
  snd (deleteSurveyRecord env id st) = Fulfilled tt /\
  records st' !! id = None /\
  (forall k : Z, k <> id -> records st' !! k = records st !! k) /\
  keyGenerator st' = keyGenerator st /\
  fst (deleteSurveyRecord env' id st') = st'.
Proof.
  intros Hopen Hreq st'.
  assert (Hdel : deleteSurveyRecord env id st = (idb_delete id st, Fulfilled tt)).
  { unfold deleteSurveyRecord, withObjectStore. by rewrite Hopen, Hreq. }
  subst st'. rewrite Hdel. cbn [fst snd idb_delete records keyGenerator].
  split; [ done | ]. split; [ apply lookup_delete_eq | ].
  split; [ intros k Hk; by apply lookup_delete_ne | ]. split; [ done | ].
  unfold deleteSurveyRecord, withObjectStore.
  destruct (db_opens env'); [ | done ].
  destruct (requests_succeed env'); [ | done ].
  unfold idb_delete. cbn [fst records keyGenerator]. f_equal.
  apply delete_id, lookup_delete_eq.
Qed.

Lemma deleteSurveyRecord_removes_witness :
  db_opens storage_available = true /\
  requests_succeed storage_available = true /\
  records (fst (deleteSurveyRecord storage_available 2 sample_store)) !! 2 = None /\
  records (fst (deleteSurveyRecord storage_available 2 sample_store)) !! 3
    = Some (sample_pending 5000 2).
Proof.
  split; [ reflexivity | ]. split; [ reflexivity | ].
  destruct (deleteSurveyRecord_removes storage_available storage_available 2
              sample_store eq_refl eq_refl) as (_ & Hgone & Hother & _).
  split; [ exact Hgone | ]. rewrite Hother by lia. reflexivity.
Defined.

(** ** Histories *)

(** One call of a writer keeps the invariant of the store, never lowers
    the key generator and never fills a key the generator has passed. *)
Lemma apply_operation_step (env : Idb) (op : Operation) (st : ObjectStore) :
  store_wf st ->
  store_wf (apply_operation env op st) /\
  keyGenerator st <= keyGenerator (apply_operation env op st) /\
  (forall k : Z,
      k < keyGenerator st -> records st !! k = None ->
      records (apply_operation env op st) !! k = None).
Proof.
  intros Hwf. destruct op as [now record given | id | now id]; cbn [apply_operation].
  - split; [ by apply saveSurveyRecord_wf | ].
    unfold saveSurveyRecord, withObjectStore.
    destruct (db_opens env); [ | cbn [fst]; by split; [ lia | ] ].
    destruct (requests_succeed env); [ | cbn [fst]; by split; [ lia | ] ].
    rewrite idb_add_fresh by done. cbn [fst records keyGenerator].
    split; [ lia | ]. intros k Hk Hnone. rewrite lookup_insert_ne by lia. done.
  - split; [ by apply deleteSurveyRecord_wf | ].
    unfold deleteSurveyRecord, withObjectStore.
    destruct (db_opens env); [ | cbn [fst]; by split; [ lia | ] ].
    destruct (requests_succeed env); [ | cbn [fst]; by split; [ lia | ] ].
    unfold idb_delete. cbn [fst records keyGenerator].
    split; [ lia | ]. intros k Hk Hnone.
    apply lookup_delete_None. by right.
  - split; [ by apply updateTimeToSend_wf | ].
    unfold updateTimeToSend, withObjectStore, idb_get.
    destruct (db_opens env); [ | cbn [fst]; by split; [ lia | ] ].
    destruct (requests_succeed env); [ | cbn [fst]; by split; [ lia | ] ].
    destruct (records st !! id) as [p|] eqn:Hp; [ | cbn; by split; [ lia | ] ].
    unfold idb_put.
    cbn [fst records keyGenerator fmap option_fmap option_map Stored.id
         Stored.pending].
    split.
    + destruct (keyGenerator st <=? id) eqn:Hg; lia.
    + intros k Hk Hnone. rewrite lookup_insert_ne; [ done | congruence ].
Qed.

(** X4. Whatever sequence of saves, deletes and reschedules runs, and whatever
    the storage does during each call, every key in use stays below the
    key generator and the generator never moves back. *)
Theorem run_operations_invariant
    (history : list (Idb * Operation)) (st : ObjectStore) :
  store_wf st ->
  store_wf (run_operations history st) /\
  keyGenerator st <= keyGenerator (run_operations history st).
Proof.
  revert st. induction history as [|[env op] rest IH]; intros st Hwf.
  - by split; [ | cbn; lia ].
  - cbn [run_operations].
    destruct (apply_operation_step env op st Hwf) as (Hwf' & Hgen & _).
    destruct (IH _ Hwf') as [Hwf'' Hgen'']. split; [ done | lia ].
Qed.

Lemma run_operations_invariant_witness :
  store_wf sample_store /\
  store_wf (run_operations
              [(storage_available, Save 2000 sample_record (Some 3));
               (storage_available, Delete 1);
               (storage_available, Reschedule 3000 4)] sample_store).
Proof.
  split; [ apply sample_store_wf | ].
  exact (proj1 (run_operations_invariant _ sample_store sample_store_wf)).
Defined.

(** A key that is not in the store and that the generator has passed
    stays out of the store. *)
Lemma run_operations_absent
    (history : list (Idb * Operation)) (st : ObjectStore) (k : Z) :
  store_wf st ->
  k < keyGenerator st ->
  records st !! k = None ->
  records (run_operations history st) !! k = None.
Proof.
  revert st. induction history as [|[env op] rest IH]; intros st Hwf Hk Hnone.
  - done.
  - cbn [run_operations].
    destruct (apply_operation_step env op st Hwf) as (Hwf' & Hgen & Hkeep).
    apply IH; [ done | lia | by apply Hkeep ].
Qed.



(** ** Repeated failures *)



(** ** Saving, rescheduling and the next scan *)

Section ScanProperties.

Variable toISOString : Z -> string.

(** The keys a scan selects: those of the records due at the scan. *)
Lemma processQueue_selected_ids
    (G : Globals) (env : Idb) (scan : Z) (clock : nat -> Z)
    (net : Entry.t -> XhrEvent) (st : ObjectStore) (id : Z) :
  db_opens env = true ->
  id ∈ Entry.id <$>
         run_selected (processQueue toISOString G env scan clock net st) <->
  exists p : PendingSurveyRecord,
    records st !! id = Some p /\ timeToSend p <= scan.
Proof.
  intros Hopen. rewrite processQueue_selected by done.
  rewrite <- list_fmap_compose. change (Entry.id ∘ queue_entry) with Stored.id.
  rewrite list_elem_of_fmap. split.
  - intros (v & -> & Hv).
    apply openCursor_upperBound in Hv as [Hv Hdue].
    rewrite index_timeToSend_perm in Hv. apply elem_of_stored_values in Hv.
    by exists (Stored.pending v).
  - intros (p & Hp & Hdue).
    exists {| Stored.id := id; Stored.pending := p |}. split; [ done | ].
    apply openCursor_upperBound. split; [ | done ].
    rewrite index_timeToSend_perm. by apply elem_of_stored_values.
Qed.


(** X9. A rescheduled record is selected by exactly the scans at or after its
    new [timeToSend]; as its count is then at least one, by none within
    the minute that follows the reschedule. *)
Theorem rescheduled_record_waits
    (G : Globals) (env : Idb) (now scan id : Z) (clock : nat -> Z)
    (net : Entry.t -> XhrEvent) (st : ObjectStore) (p : PendingSurveyRecord) :
  db_opens env = true ->
  requests_succeed env = true ->
  records st !! id = Some p ->
  0 <= tries p ->
  let rescheduled := fst (updateTimeToSend env now id st) in
  let selected :=
    Entry.id <$>
      run_selected (processQueue toISOString G env scan clock net rescheduled) in
  (id ∈ selected <-> now + calculateSendingDelay (tries p + 1) <= scan) /\
  (scan < now + 60000 -> id ∉ selected).
Proof.
  intros Hopen Hreq Hp Htries rescheduled selected.
  assert (Hnew : records rescheduled !! id =
            Some {| surveyRecord := surveyRecord p;
                    timeToSend := now + calculateSendingDelay (tries p + 1);
                    tries := tries p + 1 |}).
  { subst rescheduled. rewrite (updateTimeToSend_present env now id st p) by done.
    unfold idb_put. cbn [fst records Stored.id Stored.pending].
    apply lookup_insert_eq. }
  assert (Hiff : id ∈ selected <->
                 now + calculateSendingDelay (tries p + 1) <= scan).
  { subst selected. rewrite processQueue_selected_ids by done. split.
    - intros (q & Hq & Hdue). rewrite Hnew in Hq. by injection Hq as <-.
    - intros Hdue. eexists. split; [ exact Hnew | exact Hdue ]. }
  split; [ exact Hiff | ].
  intros Hsoon Hin. apply Hiff in Hin.
  assert (calculateSendingDelay 1 <= calculateSendingDelay (tries p + 1)).
  { destruct (Z.eq_dec (tries p) 0) as [-> | Hne]; [ done | ].
    apply Z.lt_le_incl, calculateSendingDelay_lt; lia. }
  change (calculateSendingDelay 1) with 60000 in *. lia.
Qed.

(** X10. The promise [processQueue] returns is never settled: not when the
    database fails to open, and not when it opens, because the function
    given to [withObjectStore] returns no promise. *)
Theorem processQueue_promise_never_settles
    (G : Globals) (env : Idb) (now : Z) (clock : nat -> Z)
    (net : Entry.t -> XhrEvent) (st : ObjectStore) :
  let promise := run_promise (processQueue toISOString G env now clock net st) in
  is_fulfilled promise = false /\ is_rejected promise = false.
Proof.
  unfold processQueue, withObjectStore.
  destruct (db_opens env) eqn:Hopen; [ | done ].
  by destruct (reconcile_all G env clock 0 _ st) as [st' outcomes].
Qed.

End ScanProperties.


Lemma rescheduled_record_waits_witness :
  records sample_store !! 2 = Some (sample_pending 500 1) /\
  2 ∉ Entry.id <$>
        run_selected
          (processQueue toISOString_utc extension_globals storage_available
             1000 (fun _ => 1000) always_204
             (fst (updateTimeToSend storage_available 1000 2 sample_store))).
Proof.
  split; [ reflexivity | ].
  apply (rescheduled_record_waits toISOString_utc extension_globals
           storage_available 1000 1000 2 (fun _ => 1000) always_204
           sample_store (sample_pending 500 1) eq_refl eq_refl eq_refl);
    [ apply Z.leb_le | apply Z.ltb_lt ]; reflexivity.
Defined.

(** ** Deleted records *)

(** X5. Keys are never reused: a key the generator has passed and that is
    not in the store (a deleted record, for one) is in no later state of
    the store, whatever is saved, deleted or rescheduled afterwards, and
    no later scan of the queue processor selects it. *)
Theorem deleted_key_never_returns
    (toISOString : Z -> string) (G : Globals) (env : Idb) (scan : Z)
    (clock : nat -> Z) (net : Entry.t -> XhrEvent)
    (history : list (Idb * Operation)) (st : ObjectStore) (k : Z) :
  store_wf st ->
  k < keyGenerator st ->
  records st !! k = None ->
  let later := run_operations history st in
  records later !! k = None /\
  k ∉ Entry.id <$>
        run_selected (processQueue toISOString G env scan clock net later).
Proof.
  intros Hwf Hk Hnone later.
  assert (Hlater : records later !! k = None)
    by (by apply run_operations_absent).
  split; [ exact Hlater | ].
  destruct (db_opens env) eqn:Hopen.
  - intros Hin. apply processQueue_selected_ids in Hin; [ | done ].
    destruct Hin as (p & Hp & _). rewrite Hlater in Hp. discriminate Hp.
  - unfold processQueue. rewrite Hopen. cbn. apply not_elem_of_nil.
Qed.

Lemma deleted_key_never_returns_witness :
  store_wf (fst (deleteSurveyRecord storage_available 2 sample_store)) /\
  records (run_operations
             [(storage_available, Save 2000 sample_record None);
              (storage_available, Reschedule 2500 2);
              (storage_available, Save 2600 sample_record (Some 1))]
             (fst (deleteSurveyRecord storage_available 2 sample_store))) !! 2
    = None.
Proof.
  assert (Hwf : store_wf (fst (deleteSurveyRecord storage_available 2
                                 sample_store)))
    by (apply deleteSurveyRecord_wf, sample_store_wf).
  split; [ exact Hwf | ].
  apply (deleted_key_never_returns toISOString_utc extension_globals
           storage_available 3000 (fun _ => 3000) always_204);
    [ exact Hwf | apply Z.ltb_lt; reflexivity | reflexivity ].
Defined.

(** ** The backoff, step by step *)

(** X11. Each further try at least doubles the delay: for every count the
    delay after one more try is not below twice the delay; and while the
    delays are exact (up to 41 tries) it is twice the delay plus one
    minute. *)
Theorem calculateSendingDelay_binary64_doubles (tries : Z) :
  0 <= tries ->
  PrimFloat.leb
    (PrimFloat.mul 2%float (calculateSendingDelay_binary64 tries))
    (calculateSendingDelay_binary64 (tries + 1)) = true /\
  (tries <= 41 ->
   exists v : Z,
     binary64_to_Z (calculateSendingDelay_binary64 tries) = Some v /\
     binary64_to_Z (calculateSendingDelay_binary64 (tries + 1))
       = Some (2 * v + 60000)).
Proof.
  intros Htries. split.
  - destruct (Z.le_gt_cases 1024 tries) as [Hbig|Hsmall].
    + rewrite !calculateSendingDelay_binary64_overflow by lia. reflexivity.
    + assert (Hall : forallb
                (fun n => PrimFloat.leb
                   (PrimFloat.mul 2%float
                      (calculateSendingDelay_binary64 (Z.of_nat n)))
                   (calculateSendingDelay_binary64 (Z.of_nat n + 1)))
                (seq 0 1024) = true) by (vm_compute; reflexivity).
      rewrite forallb_forall in Hall.
      specialize (Hall (Z.to_nat tries)). rewrite Z2Nat.id in Hall by lia.
      apply Hall, in_seq. lia.
  - intros Hexact. exists ((2 ^ tries - 1) * 60000).
    split; [ apply calculateSendingDelay_binary64_value; lia | ].
    rewrite calculateSendingDelay_binary64_value by lia.
    f_equal. rewrite Z.pow_add_r by lia. change (2 ^ 1) with 2. ring.
Qed.

Lemma calculateSendingDelay_binary64_doubles_witness :
  0 <= 4 /\
  binary64_to_Z (calculateSendingDelay_binary64 5) = Some (2 * 900000 + 60000).
Proof.
  split; [ lia | ].
  destruct (calculateSendingDelay_binary64_doubles 4 ltac:(lia)) as [_ Hexact].
  destruct (Hexact ltac:(lia)) as (v & Hv & Hnext).
  vm_compute in Hv. injection Hv as <-. exact Hnext.
Defined.

(** One call keeps a record that stays in the store at or after its
    schedule. *)
Lemma apply_operation_never_earlier
    (env : Idb) (op : Operation) (base : Z) (st : ObjectStore) (k : Z)
    (p p' : PendingSurveyRecord) :
  store_wf st ->
  scheduled_by base st ->
  clock_ordered base [(env, op)] ->
  records st !! k = Some p ->
  records (apply_operation env op st) !! k = Some p' ->
  tries p <= tries p' /\ timeToSend p <= timeToSend p'.
Proof.
  intros Hwf Hsched Hclock Hp Hp'.
  destruct op as [now record given | id | now id]; cbn [apply_operation] in Hp'.
  - assert (Hne : k <> keyGenerator st).
    { intros ->. rewrite keyGenerator_fresh in Hp by done. discriminate Hp. }
    unfold saveSurveyRecord, withObjectStore in Hp'.
    destruct (db_opens env); [ | cbn in Hp'; simplify_eq; lia ].
    destruct (requests_succeed env); [ | cbn in Hp'; simplify_eq; lia ].
    rewrite idb_add_fresh in Hp' by done. cbn [fst records] in Hp'.
    rewrite lookup_insert_ne in Hp' by done. simplify_eq. lia.
  - unfold deleteSurveyRecord, withObjectStore in Hp'.
    destruct (db_opens env); [ | cbn in Hp'; simplify_eq; lia ].
    destruct (requests_succeed env); [ | cbn in Hp'; simplify_eq; lia ].
    cbn [fst idb_delete records] in Hp'.
    apply lookup_delete_Some in Hp' as [_ Hp']. simplify_eq. lia.
  - destruct Hclock as [Hbase _].
    destruct (updateTimeToSend_never_earlier env now id k st p
                (scheduled_by_later base now st Hbase Hsched) Hp)
      as (q & Hq & Hle).
    rewrite Hq in Hp'. by injection Hp' as <-.
Qed.

(** One call keeps the schedule of the store, at the clock it reads. *)
Lemma apply_operation_scheduled
    (env : Idb) (op : Operation) (base : Z) (rest : list (Idb * Operation))
    (st : ObjectStore) :
  scheduled_by base st ->
  clock_ordered base ((env, op) :: rest) ->
  exists later : Z,
    scheduled_by later (apply_operation env op st) /\
    clock_ordered later rest.
Proof.
  intros Hsched Hclock.
  destruct op as [now record given | id | now id];
    cbn [clock_ordered apply_operation] in *.
  - destruct Hclock as (Hbase & Hgiven & Hrest). exists now. split; [ | done ].
    apply saveSurveyRecord_scheduled; [ done | ].
    by apply scheduled_by_later with base.
  - exists base. split; [ | done ]. by apply deleteSurveyRecord_scheduled.
  - destruct Hclock as (Hbase & Hrest). exists now. split; [ | done ].
    apply updateTimeToSend_scheduled. by apply scheduled_by_later with base.
Qed.

(** Every sequence of calls under a clock that does not go back keeps
    the schedule of the store. *)
Lemma run_operations_scheduled
    (history : list (Idb * Operation)) (base : Z) (st : ObjectStore) :
  scheduled_by base st ->
  clock_ordered base history ->
  exists later : Z, scheduled_by later (run_operations history st).
Proof.
  revert base st. induction history as [|[env op] rest IH];
    intros base st Hsched Hclock.
  - by exists base.
  - cbn [run_operations].
    destruct (apply_operation_scheduled env op base rest st Hsched Hclock)
      as (later & Hsched' & Hclock').
    by apply (IH later).
Qed.

(** X12. As long as the clock does not go back, no sequence of saves, deletes
    and reschedules lowers the [tries] or the [timeToSend] of a record:
    a record found in the store before and after has both at least as
    large afterwards. *)
Theorem history_never_earlier
    (history : list (Idb * Operation)) (base : Z) (st : ObjectStore) (k : Z)
    (p p' : PendingSurveyRecord) :
  store_wf st ->
  scheduled_by base st ->
  clock_ordered base history ->
  records st !! k = Some p ->
  records (run_operations history st) !! k = Some p' ->
  tries p <= tries p' /\ timeToSend p <= timeToSend p'.
Proof.
  revert base st p.
  induction history as [|[env op] rest IH]; intros base st p Hwf Hsched Hclock Hp Hp'.
  - cbn in Hp'. simplify_eq. lia.
  - cbn [run_operations] in Hp'.
    destruct (apply_operation_step env op st Hwf) as (Hwf' & Hgen & _).
    destruct (apply_operation_scheduled env op base rest st Hsched Hclock)
      as (later & Hsched' & Hclock').
    destruct (records (apply_operation env op st) !! k) as [q|] eqn:Hq.
    + assert (Hstep : tries p <= tries q /\ timeToSend p <= timeToSend q).
      { apply (apply_operation_never_earlier env op base st k p q); try done.
        destruct op; cbn [clock_ordered] in *; tauto. }
      destruct (IH later _ q Hwf' Hsched' Hclock' Hq Hp'). lia.
    + rewrite run_operations_absent in Hp'; [ discriminate Hp' | done | | done ].
      destruct Hwf as [_ Hwf]. apply Hwf in Hp. lia.
Qed.

Lemma history_never_earlier_witness :
  store_wf sample_store /\
  scheduled_by 1000 sample_store /\
  clock_ordered 1000
    [(storage_available, Reschedule 1500 2);
     (storage_available, Save 1600 sample_record None);
     (storage_available, Delete 1);
     (storage_available, Reschedule 90000 2)] /\
  records sample_store !! 2 = Some (sample_pending 500 1) /\
  records (run_operations
             [(storage_available, Reschedule 1500 2);
              (storage_available, Save 1600 sample_record None);
              (storage_available, Delete 1);
              (storage_available, Reschedule 90000 2)] sample_store) !! 2
    = Some (sample_pending 510000 3) /\
  500 <= 510000.
Proof.
  assert (Hclock : clock_ordered 1000
            [(storage_available, Reschedule 1500 2);
             (storage_available, Save 1600 sample_record None);
             (storage_available, Delete 1);
             (storage_available, Reschedule 90000 2)])
    by (cbn; lia).
  split; [ apply sample_store_wf | ]. split; [ apply sample_store_scheduled | ].
  split; [ exact Hclock | ]. split; [ reflexivity | ].
  split; [ by vm_compute | ].
  exact (proj2 (history_never_earlier _ 1000 sample_store 2
                  (sample_pending 500 1) (sample_pending 510000 3)
                  sample_store_wf sample_store_scheduled Hclock
                  eq_refl ltac:(by vm_compute))).
Defined.

(** * The background page: properties *)

(** ** Participant identifiers *)

Lemma characters_append (a b : string) :
  characters (a +:+ b) = characters a ++ characters b.
Proof.
  unfold characters. induction a as [|c a IH]; [ done | ].
  rewrite append_cons. cbn [list_ascii_of_string]. by rewrite IH.
Qed.

Lemma charAt_inside (s : string) (i : nat) :
  (i < String.length s)%nat ->
  exists c : ascii, charAt s i = String c EmptyString /\ c ∈ characters s.
Proof.
  revert i. induction s as [|d s IH]; intros i Hi; [ cbn in Hi; lia | ].
  destruct i as [|i].
  - exists d. split; [ done | left ].
  - destruct (IH i) as (c & Hc & Hin); [ cbn in Hi; lia | ].
    exists c. split; [ | by right ].
    unfold charAt in *. cbn [String.get]. exact Hc.
Qed.

(** What the drawing loop appends: as many characters as iterations are
    left, each one of the character set. *)
Lemma draw_participantId_appends (draws : nat -> nat) (fuel i : nat)
    (acc : string) :
  (fuel + i = 100)%nat ->
  (forall j : nat, (draws j < String.length charset)%nat) ->
  exists suffix : string,
    draw_participantId fuel i draws acc = (acc +:+ suffix)%string /\
    String.length suffix = fuel /\
    Forall (fun c => c ∈ characters charset) (characters suffix).
Proof.
  intros Hsum Hdraws. revert i acc Hsum.
  induction fuel as [|fuel IH]; intros i acc Hsum.
  - exists EmptyString. split; [ | by split; [ | constructor ] ].
    cbn. clear. induction acc as [|c acc IH]; [ done | ].
    by rewrite append_cons, <- IH.
  - cbn [draw_participantId].
    assert (Hlt : (i <? 100)%nat = true) by (apply Nat.ltb_lt; lia).
    rewrite Hlt.
    destruct (charAt_inside charset (draws i)) as (c & Hc & Hin);
      [ apply Hdraws | ].
    destruct (IH (S i) (acc +:+ charAt charset (draws i))%string)
      as (suffix & Hrun & Hlen & Hall); [ lia | ].
    exists (String c suffix). rewrite Hrun, Hc. split; [ | split ].
    + clear. induction acc as [|d acc IH]; [ done | ].
      by rewrite !append_cons, IH.
    + cbn. by rewrite Hlen.
    + by constructor.
Qed.

(** X13. Whatever is drawn, a generated participant identifier has exactly 100
    characters, all of the character set; that set has "T" twice and
    neither "Y" nor "j", so no identifier contains those two. *)
Theorem participantId_shape (draws : nat -> nat) :
  (forall j : nat, (draws j < String.length charset)%nat) ->
  let participantId := draw_participantId 100 0 draws EmptyString in
  String.length participantId = 100%nat /\
  Forall (fun c => c ∈ characters charset) (characters participantId) /\
  ("Y"%char ∉ characters participantId) /\
  ("j"%char ∉ characters participantId).
Proof.
  intros Hdraws participantId.
  destruct (draw_participantId_appends draws 100 0 EmptyString eq_refl Hdraws)
    as (suffix & Hrun & Hlen & Hall).
  rewrite append_nil in Hrun. subst participantId. rewrite Hrun.
  split; [ exact Hlen | ]. split; [ exact Hall | ].
  rewrite Forall_forall in Hall.
  split; intros Hin; apply Hall in Hin; revert Hin;
    unfold characters, charset; cbn [list_ascii_of_string];
    rewrite !elem_of_cons, elem_of_nil; intros Hin;
    repeat (destruct Hin as [Hin | Hin]; [ discriminate Hin | ]); exact Hin.
Qed.

Lemma participantId_shape_witness :
  (forall j : nat, (Nat.modulo j 61 < 61)%nat) /\
  String.length (draw_participantId 100 0 (fun j => Nat.modulo j 61) EmptyString)
    = 100%nat.
Proof.
  assert (Hdraws : forall j : nat, (Nat.modulo j 61 < 61)%nat)
    by (intros j; apply Nat.mod_upper_bound; lia).
  split; [ exact Hdraws | ].
  exact (proj1 (participantId_shape (fun j => Nat.modulo j 61) Hdraws)).
Defined.

(** X14. [getParticipantId] always replaces the stored identifier by a newly
    drawn one. So when an identifier is stored, the call resolves with it
    but leaves another in storage, and the next call resolves with that
    other one: the identifier changes between two calls. *)
Theorem getParticipantId_rotates
    (draws draws' : nat -> nat) (b : Browser) (stored : value) :
  (forall j : nat, (draws j < String.length charset)%nat) ->
  local b !! Page.PARTICIPANT_ID_LOOKUP = Some stored ->
  truthy (Some stored) = true ->
  let drawn := VJson (JStr (draw_participantId 100 0 draws EmptyString)) in
  let first := getParticipantId draws b in
  let second := getParticipantId draws' (fst first) in
  snd first = stored /\
  local (fst first) !! Page.PARTICIPANT_ID_LOOKUP = Some drawn /\
  snd second = drawn.
Proof.
  intros Hdraws Hstored Htruthy drawn first second.
  assert (Hfirst : first = (storage_set Page.PARTICIPANT_ID_LOOKUP drawn b, stored)).
  { subst first. unfold getParticipantId. by rewrite Hstored, Htruthy. }
  assert (Hlocal : local (fst first) !! Page.PARTICIPANT_ID_LOOKUP = Some drawn).
  { rewrite Hfirst. cbn [fst storage_set local]. apply lookup_insert_eq. }
  split; [ by rewrite Hfirst | ]. split; [ exact Hlocal | ].
  subst second. unfold getParticipantId. rewrite Hlocal.
  assert (Hnonempty : truthy (Some drawn) = true).
  { subst drawn. cbn [truthy].
    destruct (draw_participantId_appends draws 100 0 EmptyString eq_refl Hdraws)
      as (suffix & Hrun & Hlen & _).
    rewrite Hrun, append_nil.
    destruct suffix; [ discriminate Hlen | done ]. }
  by rewrite Hnonempty.
Qed.

Lemma getParticipantId_rotates_witness :
  (forall j : nat, (Nat.modulo j 61 < 61)%nat) /\
  local sample_browser !! Page.PARTICIPANT_ID_LOOKUP
    = Some (VJson (JStr "participant-7")) /\
  snd (getParticipantId (fun j => Nat.modulo j 61) sample_browser)
    = VJson (JStr "participant-7") /\
  snd (getParticipantId (fun j => 0%nat)
         (fst (getParticipantId (fun j => Nat.modulo j 61) sample_browser)))
    = VJson (JStr (draw_participantId 100 0 (fun j => Nat.modulo j 61)
                     EmptyString)).
Proof.
  assert (Hdraws : forall j : nat, (Nat.modulo j 61 < 61)%nat)
    by (intros j; apply Nat.mod_upper_bound; lia).
  split; [ exact Hdraws | ]. split; [ reflexivity | ].
  destruct (getParticipantId_rotates (fun j => Nat.modulo j 61)
              (fun j => 0%nat) sample_browser (VJson (JStr "participant-7"))
              Hdraws eq_refl eq_refl) as (Hfirst & _ & Hsecond).
  split; [ exact Hfirst | exact Hsecond ].
Defined.

(** ** Completed surveys *)

(** X15. A completed survey is queued with no tries and is due at once. With
    the storage available, the reaction of [handleCompletedSurvey] to the
    identifier [getParticipantId] resolved with adds one record under the
    generator's key: the message's type and responses, that identifier,
    the time of completion, [tries = 0] and [timeToSend = now]; every scan
    from then on selects it. *)
Theorem handleCompletedSurvey_enqueues
    (toISOString : Z -> string) (G : Globals) (draws : nat -> nat)
    (env : Idb) (taken now scan : Z) (clock : nat -> Z)
    (net : Entry.t -> XhrEvent) (message : Message.t) (participantId : json)
    (b : Browser) (st : ObjectStore) :
  store_wf st ->
  db_opens env = true ->
  requests_succeed env = true ->
  snd (getParticipantId draws b) = VJson participantId ->
  now <= scan ->
  let st' :=
    fst (handleCompletedSurvey_then env taken now message participantId st) in
  records st' =
    <[keyGenerator st :=
        {| surveyRecord :=
             {| type := Message.survey_type message;
                participantId := participantId;
                dateTaken := taken;
                responses := Message.responses message |};
           timeToSend := now;
           tries := 0 |}]> (records st) /\
  records st !! keyGenerator st = None /\
  keyGenerator st ∈
    Entry.id <$>
      run_selected (processQueue toISOString G env scan clock net st').
Proof.
  intros Hwf Hopen Hreq _ Hscan st'.
  assert (Hrecords : records st' =
            <[keyGenerator st :=
                {| surveyRecord :=
                     {| type := Message.survey_type message;
                        participantId := participantId;
                        dateTaken := taken;
                        responses := Message.responses message |};
                   timeToSend := now;
                   tries := 0 |}]> (records st)).
  { subst st'. unfold handleCompletedSurvey_then, saveSurveyRecord, withObjectStore.
    rewrite Hopen, Hreq, idb_add_fresh by done.
    cbn [fst records or_zero]. change (calculateSendingDelay 0) with 0.
    by rewrite Z.add_0_r. }
  split; [ exact Hrecords | ]. split; [ by apply keyGenerator_fresh | ].
  apply processQueue_selected_ids; [ done | ].
  eexists. split; [ rewrite Hrecords; apply lookup_insert_eq | ]. exact Hscan.
Qed.

Lemma handleCompletedSurvey_enqueues_witness :
  store_wf sample_store /\
  snd (getParticipantId (fun j => 0%nat) sample_browser)
    = VJson (JStr "participant-7") /\
  4 ∈ Entry.id <$>
        run_selected
          (processQueue toISOString_utc extension_globals storage_available
             2500 (fun _ => 2500) always_204
             (fst (handleCompletedSurvey_then storage_available 2000 2001
                     {| Message.survey_type := "malware-proceed";
                        Message.responses := [] |}
                     (JStr "participant-7") sample_store))).
Proof.
  split; [ apply sample_store_wf | ]. split; [ reflexivity | ].
  destruct (handleCompletedSurvey_enqueues toISOString_utc extension_globals
              (fun j => 0%nat) storage_available 2000 2001 2500
              (fun _ => 2500) always_204
              {| Message.survey_type := "malware-proceed";
                 Message.responses := [] |}
              (JStr "participant-7") sample_browser sample_store
              sample_store_wf eq_refl eq_refl eq_refl ltac:(lia))
    as (_ & _ & Hselected).
  exact Hselected.
Defined.

(** ** Installation and alarms *)

Section PageProperties.

Variable SURVEYS_SHOWN_TODAY : string.
Variable SURVEYS_SHOWN_THIS_WEEK : string.

(** X16. After [setupState] on installation the page is not ready for surveys
    and both survey counts read 0, whatever keys the counts are kept
    under; each alarm of the set-up is scheduled as given and alarms of
    other names are left alone. For any other reason ([update],
    [chrome_update]) nothing changes. *)
Theorem setupState_page_install (midnight : Z) (b : Browser) :
  let b' :=
    setupState_page SURVEYS_SHOWN_TODAY SURVEYS_SHOWN_THIS_WEEK
      "install" midnight b in
  truthy (local b' !! Page.READY_FOR_SURVEYS) = false /\
  local b' !! SURVEYS_SHOWN_TODAY = Some (VJson (JNum 0)) /\
  local b' !! SURVEYS_SHOWN_THIS_WEEK = Some (VJson (JNum 0)) /\
  (forall (name : string) (info : AlarmCreateInfo),
      (name, info) ∈ setupState "install" midnight ->
      alarms b' !! name = Some info) /\
  (forall name : string,
      name ∉ (setupState "install" midnight).*1 ->
      alarms b' !! name = alarms b !! name) /\
  (forall reason : string,
      reason <> "install"%string ->
      setupState_page SURVEYS_SHOWN_TODAY SURVEYS_SHOWN_THIS_WEEK
        reason midnight b = b).
Proof.
  intros b'. subst b'. unfold setupState_page. cbn [String.eqb Ascii.eqb Bool.eqb negb].
  unfold setSurveysShownWeekly, setSurveysShownDaily,
    setReadyForSurveysStorageValue, alarms_create, storage_set.
  cbn [local alarms].
  split; [ | split; [ | split; [ | split; [ | split ] ] ] ].
  - rewrite !lookup_insert. by repeat case_decide.
  - rewrite !lookup_insert. by repeat case_decide.
  - by rewrite lookup_insert_eq.
  - intros name info Hin. cbn in Hin.
    rewrite !elem_of_cons, elem_of_nil in Hin.
    destruct Hin as [[= -> ->] | [[= -> ->] | [[= -> ->] | [[= -> ->] | []]]]];
      repeat first
        [ apply lookup_insert_eq
        | rewrite lookup_insert_ne
            by (intros Heq; compute in Heq; discriminate Heq) ].
  - intros name Hnot. cbn in Hnot.
    rewrite !not_elem_of_cons in Hnot.
    destruct Hnot as (H1 & H2 & H3 & H4 & _).
    by rewrite !lookup_insert_ne.
  - intros reason Hreason.
    by destruct (String.eqb_spec reason "install").
Qed.

(** X17. An alarm reaches its own handler only. The uninstall alarm uninstalls,
    a count alarm sets its count to 0, the notification alarm clears the
    notification and itself, and in each case nothing else in the browser
    and nothing in the queue store changes; an alarm of any other name
    than these four and the queue's changes nothing at all. *)
Theorem onAlarm_own_handler
    (G : Globals) (scheduled : Z) (period : option Z)
    (b : Browser) (st : ObjectStore) :
  let fire (name : string) :=
    onAlarm SURVEYS_SHOWN_TODAY SURVEYS_SHOWN_THIS_WEEK G
      {| Alarm.name := name; Alarm.scheduledTime := scheduled;
         Alarm.periodInMinutes := period |} (b, st) in
  fire Cesp.UNINSTALL_ALARM_NAME = (uninstallSelf b, st, Returned) /\
  fire Cesp.SURVEY_THROTTLE_DAILY_RESET_ALARM
    = (storage_set SURVEYS_SHOWN_TODAY (VJson (JNum 0)) b, st, Returned) /\
  fire Cesp.SURVEY_THROTTLE_WEEKLY_RESET_ALARM
    = (storage_set SURVEYS_SHOWN_THIS_WEEK (VJson (JNum 0)) b, st, Returned) /\
  fire Cesp.NOTIFICATION_ALARM_NAME = (clearNotifications None b, st, Returned) /\
  (forall name : string,
      name ∉ [Cesp.UNINSTALL_ALARM_NAME;
              Cesp.SURVEY_THROTTLE_DAILY_RESET_ALARM;
              Cesp.SURVEY_THROTTLE_WEEKLY_RESET_ALARM;
              Cesp.NOTIFICATION_ALARM_NAME;
              Settings.QUEUE_ALARM_NAME] ->
      fire name = (b, st, Returned)).
Proof.
  intros fire. subst fire. cbv beta.
  split; [ done | ]. split; [ done | ]. split; [ done | ]. split; [ done | ].
  intros name Hname. rewrite !not_elem_of_cons in Hname.
  destruct Hname as (H1 & H2 & H3 & H4 & H5 & _).
  unfold onAlarm, handleUninstallAlarm, resetSurveyDailyCount,
    resetSurveyWeeklyCount, clearNotifications, processQueueAlarm.
  cbn [fst snd Alarm.name].
  destruct (String.eqb_spec name Cesp.UNINSTALL_ALARM_NAME); [ done | ].
  destruct (String.eqb_spec name Cesp.SURVEY_THROTTLE_DAILY_RESET_ALARM);
    [ done | ].
  destruct (String.eqb_spec name Cesp.SURVEY_THROTTLE_WEEKLY_RESET_ALARM);
    [ done | ].
  destruct (String.eqb_spec name Cesp.NOTIFICATION_ALARM_NAME); [ done | ].
  destruct (String.eqb_spec name Settings.QUEUE_ALARM_NAME); [ done | ].
  done.
Qed.

(** ** Consent and set-up *)

Variable CONSENT_KEY : string.
Variable SETUP_KEY : string.
Variable CONSENT_PENDING : option value.
Variable CONSENT_REJECTED : option value.
Variable CONSENT_GRANTED : option value.
Variable SETUP_PENDING : option value.
Variable SETUP_COMPLETED : option value.

(** X18. The start-up check acts on the stored consent only as follows. It
    writes to storage only to mark the page ready, and only when the
    stored consent is the granted value and the stored set-up the
    completed one, both truthy; it uninstalls only when the stored consent
    is the rejected value; it opens at most one page; and with no consent
    stored it opens the consent page and starts to watch the storage,
    without marking the page ready or uninstalling. *)
Theorem maybeShowConsentOrSetupSurvey_gate (os : string) (b : Browser) :
  let b' :=
    maybeShowConsentOrSetupSurvey CONSENT_KEY SETUP_KEY CONSENT_PENDING
      CONSENT_REJECTED CONSENT_GRANTED SETUP_PENDING SETUP_COMPLETED os b in
  (local b' <> local b ->
   local b' = <[Page.READY_FOR_SURVEYS := VBool true]> (local b) /\
   truthy (local b !! CONSENT_KEY) = true /\
   strict_eq (local b !! CONSENT_KEY) CONSENT_GRANTED = true /\
   truthy (local b !! SETUP_KEY) = true /\
   strict_eq (local b !! SETUP_KEY) SETUP_COMPLETED = true) /\
  (uninstalled b' <> uninstalled b ->
   strict_eq (local b !! CONSENT_KEY) CONSENT_REJECTED = true) /\
  (tabs b' = tabs b \/ exists page : string, tabs b' = tabs b ++ [page]) /\
  (local b !! CONSENT_KEY = None ->
   b' = {| local := local b;
           alarms := alarms b;
           notifications := notifications b;
           tabs := tabs b ++ [("consent.html?os=" +:+ os)%string];
           watching_setup := true;
           uninstalled := uninstalled b |}).
Proof.
  intros b'. subst b'. unfold maybeShowConsentOrSetupSurvey, setupCallback.
  destruct (truthy (local b !! CONSENT_KEY)) eqn:Hconsent;
    destruct (strict_eq (local b !! CONSENT_KEY) CONSENT_PENDING) eqn:Hpending;
    destruct (strict_eq (local b !! CONSENT_KEY) CONSENT_REJECTED) eqn:Hrejected;
    destruct (strict_eq (local b !! CONSENT_KEY) CONSENT_GRANTED) eqn:Hgranted;
    destruct (truthy (local b !! SETUP_KEY)) eqn:Hsetup;
    destruct (strict_eq (local b !! SETUP_KEY) SETUP_PENDING) eqn:Hwaiting;
    destruct (strict_eq (local b !! SETUP_KEY) SETUP_COMPLETED) eqn:Hcompleted;
    cbn;
    (split; [ | split; [ | split ] ]);
    try done; eauto;
    try (intros Hnone; rewrite Hnone in Hconsent; discriminate Hconsent).
Qed.

End PageProperties.
